(** * aiida-wannier90: the minimal Wannier90 WorkGraph builder

    A shallow embedding of [minimal_w90_workgraph] and [get_explicit_kpoints]
    from [src/aiida_wannier90/workflows/minimal_workgraph.py], together with
    the inputs of the launcher in
    [examples/workflows/launch_w90_minimal_workgraph.py].

    The builder is Python glue code over nested dictionaries.  It is modelled
    - over a universe [value] of Python values, dictionaries being finite
      maps with string keys;
    - in a state-and-exception monad [M]: the state holds the object bound to
      the name [inputs] (a tree that the builder mutates in place) and the
      WorkGraph under construction; the state survives a raised exception,
      so that what the caller can observe after a failed call is part of
      the model. *)

From stdpp Require Import gmap strings list fin_maps.
From Stdlib Require Import QArith.

Set Warnings "-register-all".
Open Scope string_scope.

(** ** Python values *)

(** Points and offsets of a k-point mesh.  Python floats are modelled by
    exact rationals. *)
Definition kpoint : Type := Q * Q * Q.

(** [orm.KpointsData] of AiiDA: either a regular mesh (three integer sizes,
    which are stored as given, and an offset), or an explicit list of points,
    or a node on which neither was set. *)
Inductive KpointsData :=
| KMesh (mesh : Z * Z * Z) (offset : kpoint)
| KList (points : list kpoint)
| KEmpty.

Inductive value :=
| VNone
| VBool (b : bool)
| VInt (n : Z)
| VFloat (q : Q)
| VStr (s : string)
| VList (l : list value)
| VDict (d : gmap string value)
| VKpoints (k : KpointsData)
| VDictNode (d : gmap string value)   (* orm.Dict(d): a data node holding a copy of d *)
| VNode (label : string).             (* any other ORM object: code, structure, pseudos, ... *)

Inductive exn :=
| KeyError (key : string)
| AttributeError (attr : string)
| TypeError (what : string)
| AssertionError (msg : string)
| ValueError (msg : string)
| NotExistent (what : string).        (* raised by the ORM lookups *)

Inductive result (A : Type) :=
| Ok (a : A)
| Raise (e : exn).
Arguments Ok {A} a.
Arguments Raise {A} e.

#[export] Instance result_ret : MRet result := λ A a, Ok a.
#[export] Instance result_bind : MBind result := λ A B f r,
  match r with
  | Ok a => f a
  | Raise e => Raise e
  end.

Definition is_ok {A} (r : result A) : bool :=
  match r with Ok _ => true | Raise _ => false end.

(** ** The dictionary operations the builder uses *)

(** [copy.deepcopy]: values are immutable trees here, a copy is the value. *)
Definition deepcopy (v : value) : value := v.

(** [k in v.keys()] *)
Definition py_in_keys (k : string) (v : value) : result bool :=
  match v with
  | VDict d => Ok (match d !! k with Some _ => true | None => false end)
  | _ => Raise (AttributeError "keys")
  end.

(** [v[k]] *)
Definition py_getitem (v : value) (k : string) : result value :=
  match v with
  | VDict d =>
      match d !! k with
      | Some x => Ok x
      | None => Raise (KeyError k)
      end
  | _ => Raise (TypeError "object is not subscriptable")
  end.

(** [v.get(k, dflt)] *)
Definition py_get (v : value) (k : string) (dflt : value) : result value :=
  match v with
  | VDict d => Ok (default dflt (d !! k))
  | _ => Raise (AttributeError "get")
  end.

(** [v[k] = x], giving the mutated [v] *)
Definition py_setitem (k : string) (x : value) (v : value) : result value :=
  match v with
  | VDict d => Ok (VDict (<[k:=x]> d))
  | _ => Raise (TypeError "object does not support item assignment")
  end.

(** [v.update(o)], giving the mutated [v]: the entries of [o] win.  Only a
    mapping is accepted for [o]. *)
Definition py_update (o : value) (v : value) : result value :=
  match v with
  | VDict d =>
      match o with
      | VDict d' => Ok (VDict (d' ∪ d))
      | _ => Raise (TypeError "object is not a mapping")
      end
  | _ => Raise (AttributeError "update")
  end.

(** [v * 8.0] and the like: a number times a float is a float. *)
Definition py_mul_float (v : value) (f : Q) : result value :=
  match v with
  | VFloat q => Ok (VFloat (q * f))
  | VInt n => Ok (VFloat (inject_Z n * f))
  | VBool b => Ok (VFloat (inject_Z (if b then 1 else 0) * f))
  | _ => Raise (TypeError "unsupported operand type(s) for *")
  end.

(** [orm.Dict(v)] *)
Definition orm_Dict (v : value) : result value :=
  match v with
  | VDict d => Ok (VDictNode d)
  | _ => Raise (TypeError "orm.Dict expects a mapping")
  end.

(** [v[k1][k2]...]: the object reached from [v] along a path of keys. *)
Fixpoint sub (p : list string) (v : value) : result value :=
  match p with
  | [] => Ok v
  | k :: p' => x ← py_getitem v k; sub p' x
  end.

(** The tree [v] after the object at path [p] was mutated by [f]. *)
Fixpoint at_path (p : list string) (f : value → result value) (v : value)
  : result value :=
  match p with
  | [] => f v
  | k :: p' => x ← py_getitem v k; x' ← at_path p' f x; py_setitem k x' v
  end.

(** ** KpointsData *)

(** [kpoints.get_kpoints()]: raises AttributeError unless a list was set (and
    on any object that has no such method). *)
Definition get_kpoints (v : value) : result (list kpoint) :=
  match v with
  | VKpoints (KList pts) => Ok pts
  | _ => Raise (AttributeError "get_kpoints")
  end.

(** [kpoints.get_kpoints_mesh()]: the pair (mesh, offset); raises
    AttributeError unless a mesh was set. *)
Definition get_kpoints_mesh (v : value)
  : result (Z * Z * Z * kpoint) :=
  match v with
  | VKpoints (KMesh m o) => Ok (m, o)
  | _ => Raise (AttributeError "get_kpoints_mesh")
  end.

(** [range(n)] as rationals; it is empty when [n] is not positive. *)
Definition qrange (n : Z) : list Q :=
  (λ i, inject_Z (Z.of_nat i)) <$> seq 0 (Z.to_nat n).

(** The points of [numpy.mgrid[0:n1, 0:n2, 0:n3]], the last index running
    fastest, each shifted by the offset and scaled by the mesh size. *)
Definition mgrid_points (m : Z * Z * Z) (o : kpoint) : list kpoint :=
  let '(n1, n2, n3) := m in
  let '(o1, o2, o3) := o in
  i ← qrange n1; j ← qrange n2; k ← qrange n3;
  [((i + o1) / inject_Z n1,
    (j + o2) / inject_Z n2,
    (k + o3) / inject_Z n3)%Q].

(** [kpoints.get_kpoints_mesh(print_list=True)] on a mesh: [numpy.mgrid]
    raises ValueError on a negative size. *)
Definition mesh_points (m : Z * Z * Z) (o : kpoint) : result (list kpoint) :=
  let '(n1, n2, n3) := m in
  if (n1 <? 0)%Z || (n2 <? 0)%Z || (n3 <? 0)%Z
  then Raise (ValueError "negative dimensions are not allowed")
  else Ok (mgrid_points m o).

Definition get_kpoints_mesh_list (v : value) : result (list kpoint) :=
  '(m, o) ← get_kpoints_mesh v; mesh_points m o.

(** [offset == [0, 0, 0]] *)
Definition offset_is_zero (o : kpoint) : bool :=
  let '(o1, o2, o3) := o in
  Qeq_bool o1 0 && Qeq_bool o2 0 && Qeq_bool o3 0.

(** [kpt = orm.KpointsData(); kpt.set_kpoints(points)]: on a node without a
    cell, an empty list is replaced by the Gamma point. *)
Definition set_kpoints (points : list kpoint) : KpointsData :=
  match points with
  | [] => KList [(0, 0, 0)%Q]
  | _ => KList points
  end.

(** The calcfunction [get_explicit_kpoints]: from a mesh to an explicit list. *)
Definition get_explicit_kpoints (kpoints : value) : result value :=
  points ← get_kpoints_mesh_list kpoints;
  Ok (VKpoints (set_kpoints points)).

(** ** The task graph *)

Inductive calc_class :=
| PwCalculation
| Pw2wannier90Calculation
| Wannier90Calculation.

(** What an input slot of a task is bound to: a value, or the output socket
    of another task (a link of the graph). *)
Inductive socket :=
| Data (v : value)
| Link (task : string) (output : string).

Record Task := MkTask {
  task_name : string;
  task_class : calc_class;
  task_inputs : list (string * socket)
}.

Record WorkGraph := MkWorkGraph {
  wg_name : string;
  wg_tasks : list Task
}.

Definition find_task (name : string) (g : WorkGraph) : option Task :=
  find (λ t, bool_decide (task_name t = name)) (wg_tasks g).

(** The binding of slot [slot] of task [name]. *)
Definition task_input (name slot : string) (g : WorkGraph) : option socket :=
  t ← find_task name g;
  snd <$> find (λ kv, bool_decide (kv.1 = slot)) (task_inputs t).

(** The links into one task, and all links of the graph, as
    (source task, source output, target task, target slot). *)
Definition task_links (t : Task) : list (string * string * string * string) :=
  omap (λ kv, match kv.2 with
              | Link src out => Some (src, out, task_name t, kv.1)
              | Data _ => None
              end) (task_inputs t).

Definition wg_links (g : WorkGraph) : list (string * string * string * string) :=
  t ← wg_tasks g; task_links t.

(** ** The builder's monad *)

Record state := MkState {
  inputs : value;              (* the object bound to [inputs] *)
  wg : option WorkGraph        (* the WorkGraph, once instantiated *)
}.

Definition M (A : Type) : Type := state → state * result A.

#[export] Instance M_ret : MRet M := λ A a s, (s, Ok a).
#[export] Instance M_bind : MBind M := λ A B f m s,
  match m s with
  | (s', Ok a) => f a s'
  | (s', Raise e) => (s', Raise e)
  end.

Definition raise {A} (e : exn) : M A := λ s, (s, Raise e).

(** A computation that does not touch the state. *)
Definition lift {A} (r : result A) : M A := λ s, (s, r).

(** Evaluate an expression over [inputs]. *)
Definition expr {A} (f : value → result A) : M A := λ s, (s, f (inputs s)).

(** Mutate in place the object at path [p] below [inputs]. *)
Definition mutate (p : list string) (f : value → result value) : M unit := λ s,
  match at_path p f (inputs s) with
  | Ok v' => (MkState v' (wg s), Ok tt)
  | Raise e => (s, Raise e)
  end.

(** [k in inputs[p].keys()] *)
Definition has_key (p : list string) (k : string) : M bool :=
  expr (λ i, d ← sub p i; py_in_keys k d).
(** [inputs[p][k]] *)
Definition get_item (p : list string) (k : string) : M value :=
  expr (λ i, d ← sub p i; py_getitem d k).
(** [inputs[p].get(k, dflt)] *)
Definition get_default (p : list string) (k : string) (dflt : value) : M value :=
  expr (λ i, d ← sub p i; py_get d k dflt).
(** [inputs[p][k] = x] *)
Definition set_item (p : list string) (k : string) (x : value) : M unit :=
  mutate p (py_setitem k x).
(** [inputs[p].update(o)] *)
Definition update (p : list string) (o : value) : M unit :=
  mutate p (py_update o).

(** [if not b: body] *)
Definition unless (b : bool) (body : M unit) : M unit :=
  if b then mret tt else body.

(** [assert b, msg] *)
Definition py_assert (b : bool) (msg : string) : M unit :=
  if b then mret tt else raise (AssertionError msg).

(** [if k not in inputs[p].keys(): inputs[p][k] = {}] *)
Definition init_missing (p : list string) (k : string) : M unit :=
  b ← has_key p k;
  unless b (set_item p k (VDict ∅)).

(** [if inputs is None: inputs = {}] *)
Definition default_inputs : M unit := λ s,
  match inputs s with
  | VNone => (MkState (VDict ∅) (wg s), Ok tt)
  | _ => (s, Ok tt)
  end.

(** [wg = WorkGraph(name)] *)
Definition new_workgraph (name : string) : M unit := λ s,
  (MkState (inputs s) (Some (MkWorkGraph name [])), Ok tt).

(** [wg.add_task(cls, name=name)] *)
Definition add_task (cls : calc_class) (name : string) : M unit := λ s,
  match wg s with
  | Some g =>
      (MkState (inputs s)
         (Some (MkWorkGraph (wg_name g) (wg_tasks g ++ [MkTask name cls []]))),
       Ok tt)
  | None => (s, Raise (AttributeError "add_task"))
  end.

(** [task.set({...})] on the task called [name] *)
Definition task_set (name : string) (kvs : list (string * socket)) : M unit := λ s,
  match wg s with
  | Some g =>
      (MkState (inputs s)
         (Some (MkWorkGraph (wg_name g)
            ((λ t, if bool_decide (task_name t = name)
                   then MkTask (task_name t) (task_class t) (task_inputs t ++ kvs)
                   else t) <$> wg_tasks g))),
       Ok tt)
  | None => (s, Raise (AttributeError "set"))
  end.

(** [return wg] *)
Definition return_wg : M WorkGraph := λ s,
  match wg s with
  | Some g => (s, Ok g)
  | None => (s, Raise (AttributeError "wg"))
  end.

(** ** The ORM registry

    [orm.load_code] and [orm.load_group(...).get_pseudos(structure=...)] are
    lookups in the AiiDA database; the builder takes them as given.  A
    lookup that finds nothing raises. *)
Record Registry := MkRegistry {
  find_code : string → option value;
  find_pseudos : string → value → option value
}.

Definition load_code (reg : Registry) (label : string) : result value :=
  match find_code reg label with
  | Some code => Ok code
  | None => Raise (NotExistent label)
  end.

Definition load_pseudos (reg : Registry) (family : string) (structure : value)
  : result value :=
  match find_pseudos reg family structure with
  | Some pseudos => Ok pseudos
  | None => Raise (NotExistent family)
  end.

(** Lines 37-39: string entries of [codes] are resolved, the others are kept. *)
Definition resolve_codes (reg : Registry) (codes : gmap string value)
  : result (gmap string value) :=
  map_fold (λ k v acc,
      c ← acc;
      match v with
      | VStr label => code ← load_code reg label; Ok (<[k:=code]> c)
      | _ => Ok c
      end) (Ok codes) codes.

(** ** minimal_w90_workgraph *)

Definition metadata_default_mpi : value :=
  VDict {[ "options" := VDict (<["resources" := VDict {[ "num_machines" := VInt 2 ]}]>
                               (<["max_wallclock_seconds" := VInt (60 * 60 * 12)]>
                                {[ "withmpi" := VBool true ]})) ]}.

Definition metadata_default_no_mpi : value :=
  VDict {[ "options" := VDict (<["resources" := VDict {[ "num_machines" := VInt 1 ]}]>
                               (<["max_wallclock_seconds" := VInt (60 * 60 * 12)]>
                                {[ "withmpi" := VBool false ]})) ]}.

Definition msg_nscf : string :=
  "nscf parameters not specified, please provide at least kpoints".
Definition msg_kpoints : string :=
  "please provide kpoint mesh for the nscf calculation".
(** The literal of lines 100-101 continues over a line break inside the
    string: the indentation of line 101 is part of the message. *)
Definition msg_explicit : string :=
  "nscf kpoints should be specified as an MP grid, "
  ++ "                         "
  ++ "it will be converted to as explicit mesh automaticaly".
Definition msg_shift : string :=
  "k-point mesh for the nscf calculation should be unshifted".

(** Lines 59-87: set up the scf parameters input dictionary; returns
    [scf_metadata]. *)
Definition scf_setup : M value :=
  default_inputs;;
  init_missing [] "scf";;
  init_missing ["scf"] "parameters";;
  init_missing ["scf"; "parameters"] "CONTROL";;
  init_missing ["scf"; "parameters"] "SYSTEM";;
  ecutwfc ← get_default ["scf"; "parameters"; "SYSTEM"] "ecutwfc" (VFloat 30);
  w ← get_default ["scf"; "parameters"; "SYSTEM"] "ecutwfc" (VFloat 30);
  ecutrho ← lift (py_mul_float w 8);
  update ["scf"; "parameters"; "CONTROL"] (VDict {[ "calculation" := VStr "scf" ]});;
  update ["scf"; "parameters"; "SYSTEM"]
    (VDict (<["ecutwfc" := ecutwfc]> {[ "ecutrho" := ecutrho ]}));;
  user ← get_default ["scf"] "metadata" (VDict ∅);
  lift (py_update user (deepcopy metadata_default_mpi)).

(** Lines 89-109: the nscf k-points must be there, and must be an unshifted
    mesh; returns [nscf_kpoints].  The [try] calls [get_kpoints]: when that
    returns, ValueError is raised (and not caught); when it raises
    AttributeError, the handler checks the shift and converts the mesh. *)
Definition nscf_kpoints_check : M value :=
  b ← has_key [] "nscf";
  py_assert b msg_nscf;;
  b ← has_key ["nscf"] "kpoints";
  py_assert b msg_kpoints;;
  kpoints ← get_item ["nscf"] "kpoints";
  match get_kpoints kpoints with
  | Ok _ => raise (ValueError msg_explicit)
  | Raise (AttributeError _) =>
      kpoints ← get_item ["nscf"] "kpoints";
      mesh_offset ← lift (get_kpoints_mesh kpoints);
      py_assert (offset_is_zero mesh_offset.2) msg_shift;;
      kpoints ← get_item ["nscf"] "kpoints";
      lift (get_explicit_kpoints kpoints)
  | Raise e => raise e
  end.

(** Lines 111-128: the nscf parameters; returns [nscf_metadata].  The third
    test reads the scf section, as line 115 does. *)
Definition nscf_setup : M value :=
  init_missing ["nscf"] "parameters";;
  init_missing ["nscf"; "parameters"] "CONTROL";;
  b ← has_key ["scf"; "parameters"] "SYSTEM";
  unless b (system ← get_item ["scf"; "parameters"] "SYSTEM";
            set_item ["nscf"; "parameters"] "SYSTEM" (deepcopy system));;
  update ["nscf"; "parameters"; "CONTROL"] (VDict {[ "calculation" := VStr "nscf" ]});;
  user ← get_default ["nscf"] "metadata" (VDict ∅);
  lift (py_update user (deepcopy metadata_default_mpi)).

Definition inputpp_default : gmap string value :=
  <["write_amn" := VBool true]>
  (<["write_unk" := VBool true]> {[ "write_mmn" := VBool true ]}).

Definition pw2wannier_parameters_default : value :=
  VDict {[ "inputpp" := VDict inputpp_default ]}.

Definition retrieve_patterns : value :=
  VList [VStr "*.amn"; VStr "*.mmn"; VStr "*.eig"].

(** Lines 142-145: [settings = inputs["pw2wannier90"].get("settings", {})]
    followed by [settings.update(...)].  When the key is there, [settings] is
    the caller's own object and the update mutates it in place; otherwise it
    is a fresh mapping that is not attached to the tree. *)
Definition pw2wannier_settings : M value :=
  settings ← get_default ["pw2wannier90"] "settings" (VDict ∅);
  attached ← has_key ["pw2wannier90"] "settings";
  let u := VDict {[ "ADDITIONAL_RETRIEVE_LIST" := retrieve_patterns ]} in
  if (attached : bool)
  then update ["pw2wannier90"; "settings"] u;; get_item ["pw2wannier90"] "settings"
  else lift (py_update u settings).

(** Lines 130-152: returns
    [(pw2wannier90_params, pw2wannier_settings, pw2wan_metadata)]. *)
Definition pw2wan_setup : M (value * value * value) :=
  init_missing [] "pw2wannier90";;
  settings ← pw2wannier_settings;
  params ← get_default ["pw2wannier90"] "parameters" (VDict ∅);
  let pw2wannier90_params := deepcopy params in
  dflt ← lift (py_getitem pw2wannier_parameters_default "inputpp");
  user ← lift (py_get pw2wannier90_params "inputpp" (VDict ∅));
  inputpp ← lift (py_update user (deepcopy dflt));
  pw2wannier90_params ← lift (py_setitem "inputpp" inputpp pw2wannier90_params);
  user ← get_default ["pw2wannier90"] "metadata" (VDict ∅);
  pw2wan_metadata ← lift (py_update user (deepcopy metadata_default_mpi));
  mret (pw2wannier90_params, settings, pw2wan_metadata).

Definition w90_params_default (mesh : Z * Z * Z) : value :=
  let '(n1, n2, n3) := mesh in
  VDict (<["mp_grid" := VList [VInt n1; VInt n2; VInt n3]]>
        (<["write_hr" := VBool false]>
        (<["write_xyz" := VBool false]>
        (<["use_ws_distance" := VBool true]>
        (<["bands_plot" := VBool true]>
        (<["num_iter" := VInt 200]>
        (<["guiding_centres" := VBool false]>
        (<["num_wann" := VInt 4]>
         {[ "exclude_bands" := VList [VInt 1; VInt 2; VInt 3; VInt 4; VInt 5] ]})))))))).

(** Lines 154-173: returns [(w90_params, wannier90_metadata)]. *)
Definition w90_setup : M (value * value) :=
  init_missing [] "wannier90";;
  kpoints ← get_item ["nscf"] "kpoints";
  mesh_offset ← lift (get_kpoints_mesh kpoints);
  user ← get_default ["wannier90"] "parameters" (VDict ∅);
  w90_params ← lift (py_update user (deepcopy (w90_params_default mesh_offset.1)));
  user ← get_default ["wannier90"] "metadata" (VDict ∅);
  wannier90_metadata ← lift (py_update user (deepcopy metadata_default_no_mpi));
  mret (w90_params, wannier90_metadata).

(** [codes[k]] *)
Definition code_of (codes : gmap string value) (k : string) : result value :=
  py_getitem (VDict codes) k.

(** Lines 175-238: the five tasks.  The entries of each dictionary passed to
    [set] are evaluated in the order they are written. *)
Definition build_graph (codes : gmap string value) (structure pseudos : value)
    (scf_metadata nscf_kpoints nscf_metadata : value)
    (pw2wannier90_params pw2wannier_settings pw2wan_metadata : value)
    (w90_params wannier90_metadata : value) : M WorkGraph :=
  new_workgraph "Minimal Wannier90 workchain";;
  add_task PwCalculation "scf";;
  code ← lift (code_of codes "pw");
  parameters ← expr (λ i, p ← sub ["scf"; "parameters"] i; orm_Dict p);
  kpoints ← get_item ["scf"] "kpoints";
  task_set "scf"
    [("code", Data code); ("structure", Data structure); ("pseudos", Data pseudos);
     ("parameters", Data parameters); ("kpoints", Data kpoints);
     ("metadata", Data scf_metadata)];;
  add_task PwCalculation "nscf";;
  code ← lift (code_of codes "pw");
  parameters ← expr (λ i, p ← sub ["nscf"; "parameters"] i; orm_Dict p);
  task_set "nscf"
    [("code", Data code); ("structure", Data structure); ("pseudos", Data pseudos);
     ("parameters", Data parameters); ("kpoints", Data nscf_kpoints);
     ("parent_folder", Link "scf" "remote_folder");
     ("metadata", Data nscf_metadata)];;
  add_task Wannier90Calculation "w90_pp";;
  code ← lift (code_of codes "wannier90");
  parameters ← lift (orm_Dict w90_params);
  kpoint_path ← get_item ["wannier90"] "kpoint_path";
  projections ← get_item ["wannier90"] "projections";
  settings ← lift (orm_Dict (VDict {[ "postproc_setup" := VBool true ]}));
  task_set "w90_pp"
    [("code", Data code); ("structure", Data structure);
     ("parameters", Data parameters); ("kpoints", Data nscf_kpoints);
     ("kpoint_path", Data kpoint_path); ("projections", Data projections);
     ("settings", Data settings);
     ("metadata", Data metadata_default_no_mpi)];;
  add_task Pw2wannier90Calculation "pw2wan";;
  code ← lift (code_of codes "pw2wannier90");
  parameters ← lift (orm_Dict pw2wannier90_params);
  settings ← lift (orm_Dict pw2wannier_settings);
  task_set "pw2wan"
    [("code", Data code); ("parameters", Data parameters);
     ("parent_folder", Link "nscf" "remote_folder");
     ("nnkp_file", Link "w90_pp" "nnkp_file");
     ("settings", Data settings);
     ("metadata", Data pw2wan_metadata)];;
  add_task Wannier90Calculation "w90";;
  code ← lift (code_of codes "wannier90");
  parameters ← lift (orm_Dict w90_params);
  kpoint_path ← get_item ["wannier90"] "kpoint_path";
  projections ← get_item ["wannier90"] "projections";
  task_set "w90"
    [("code", Data code); ("structure", Data structure);
     ("parameters", Data parameters); ("kpoints", Data nscf_kpoints);
     ("kpoint_path", Data kpoint_path);
     ("remote_input_folder", Link "pw2wan" "remote_folder");
     ("projections", Data projections);
     ("metadata", Data wannier90_metadata)];;
  return_wg.

(** Lines 59-238, after the codes and the pseudopotentials were resolved. *)
Definition workgraph_body (codes : gmap string value) (structure pseudos : value)
  : M WorkGraph :=
  scf_metadata ← scf_setup;
  nscf_kpoints ← nscf_kpoints_check;
  nscf_metadata ← nscf_setup;
  pw2wan ← pw2wan_setup;
  w90 ← w90_setup;
  build_graph codes structure pseudos scf_metadata nscf_kpoints nscf_metadata
    pw2wan.1.1 pw2wan.1.2 pw2wan.2 w90.1 w90.2.

(** The whole function, run on the caller's [inputs] object: the final state
    (the [inputs] object after the call, and the WorkGraph if one was
    instantiated) and the returned graph or the raised exception. *)
Definition minimal_w90_workgraph (reg : Registry) (codes : gmap string value)
    (structure : value) (pseudo_family : string) (inputs : value)
  : state * result WorkGraph :=
  (codes ← lift (resolve_codes reg codes);
   pseudos ← lift (load_pseudos reg pseudo_family structure);
   workgraph_body codes structure pseudos) (MkState inputs None).

(** ** Reading a graph and a configuration tree *)

(** [v[k1][k2]...] when every key is there, [None] otherwise. *)
Definition lookup_path (p : list string) (v : value) : option value :=
  match sub p v with
  | Ok x => Some x
  | Raise _ => None
  end.

(** The entry at path [p] of the mapping (a dictionary or an [orm.Dict]
    node) that slot [slot] of task [name] is bound to. *)
Definition node_lookup (name slot : string) (p : list string) (g : WorkGraph)
  : option value :=
  match task_input name slot g with
  | Some (Data (VDictNode d)) | Some (Data (VDict d)) => lookup_path p (VDict d)
  | _ => None
  end.

(** The graph a call returned, if it returned one. *)
Definition returned {A} (r : state * result A) : option A :=
  match r.2 with
  | Ok g => Some g
  | Raise _ => None
  end.

(** The exception a call raised, if it raised one. *)
Definition raised {A} (r : state * result A) : option exn :=
  match r.2 with
  | Ok _ => None
  | Raise e => Some e
  end.

(** The nscf k-point specification of a tree is an unshifted mesh: it passes
    the three validations. *)
Definition zero_shift_mesh (kpoints : value) : bool :=
  match kpoints with
  | VKpoints (KMesh _ offset) => offset_is_zero offset
  | _ => false
  end.

Definition passes_nscf_checks (inputs : value) : bool :=
  match lookup_path ["nscf"; "kpoints"] inputs with
  | Some kpoints => zero_shift_mesh kpoints
  | None => false
  end.

(** The four places where the nscf k-point validations raise. *)
Definition nscf_validation_error (e : exn) : bool :=
  match e with
  | AssertionError msg =>
      bool_decide (msg = msg_nscf) || bool_decide (msg = msg_kpoints)
      || bool_decide (msg = msg_shift)
  | ValueError msg => bool_decide (msg = msg_explicit)
  | _ => false
  end.

(** ** The launcher script

    [examples/workflows/launch_w90_minimal_workgraph.py]: GaAs, a 2x2x2
    unshifted mesh for both the scf and the nscf stage, a k-point path and
    projections, the three codes given by their labels. *)
Module Launch.

(** A database in which every code label resolves and the family covers
    the structure. *)
Definition registry : Registry :=
  MkRegistry
    (λ label, Some (VNode label))
    (λ family structure, Some (VDict (<["Ga" := VNode "Ga.upf"]> {[ "As" := VNode "As.upf" ]}))).

Definition kpoints_mesh : value := VKpoints (KMesh (2, 2, 2)%Z (0, 0, 0)%Q).

Definition codes : gmap string value :=
  <["pw" := VStr "qe-7.4-pw@localhost"]>
  (<["pw2wannier90" := VStr "qe-7.4-pw2wannier90@localhost"]>
   {[ "wannier90" := VStr "wannier90@localhost" ]}).

Definition pseudo_family : string := "SSSP/1.3/PBE/efficiency".

Definition wannier90_section (kpath projections : value) : gmap string value :=
  <["kpoint_path" := kpath]> {[ "projections" := projections ]}.

Definition inputs_of (scf nscf wannier90 : gmap string value) : value :=
  VDict (<["scf" := VDict scf]> (<["nscf" := VDict nscf]>
         {[ "wannier90" := VDict wannier90 ]})).

Definition structure : value := VNode "GaAs".
Definition kpath : value := VNode "kpath".
Definition projections : value := VNode "projections".

Definition inputs : value :=
  inputs_of {[ "kpoints" := kpoints_mesh ]} {[ "kpoints" := kpoints_mesh ]}
    (wannier90_section kpath projections).

Definition run (inputs : value) : state * result WorkGraph :=
  minimal_w90_workgraph registry codes structure pseudo_family inputs.

(** The launcher's inputs with a caller-supplied scf SYSTEM namelist. *)
Definition inputs_with_scf_system (system : gmap string value) : value :=
  inputs_of
    (<["parameters" := VDict {[ "SYSTEM" := VDict system ]}]> {[ "kpoints" := kpoints_mesh ]})
    {[ "kpoints" := kpoints_mesh ]}
    (wannier90_section kpath projections).

(** ... with caller-supplied pw2wannier90 settings. *)
Definition inputs_with_pw2wan_settings (settings : gmap string value) : value :=
  match inputs with
  | VDict d => VDict (<["pw2wannier90" := VDict {[ "settings" := VDict settings ]}]> d)
  | v => v
  end.

(** ... with caller-supplied metadata for the wannier90 stage. *)
Definition inputs_with_w90_metadata (metadata : value) : value :=
  inputs_of {[ "kpoints" := kpoints_mesh ]} {[ "kpoints" := kpoints_mesh ]}
    (<["metadata" := metadata]> (wannier90_section kpath projections)).

(** The launcher's inputs with another unshifted mesh for the nscf stage. *)
Definition inputs_with_nscf_mesh (mesh : Z * Z * Z) : value :=
  inputs_of {[ "kpoints" := kpoints_mesh ]}
    {[ "kpoints" := VKpoints (KMesh mesh (0, 0, 0)%Q) ]}
    (wannier90_section kpath projections).

(** An inputs tree with the nscf mesh and nothing else. *)
Definition inputs_nscf_only : value :=
  VDict {[ "nscf" := VDict {[ "kpoints" := kpoints_mesh ]} ]}.

End Launch.

(** * Vocabulary of the specification *)

(** Two paths part ways: at some depth they take different keys. *)
Fixpoint diverge (p q : list string) : bool :=
  match p, q with
  | k1 :: p', k2 :: q' => if decide (k1 = k2) then diverge p' q' else true
  | _, _ => false
  end.

(** [a] is a proper prefix of [q]. *)
Fixpoint strict_prefix (a q : list string) : bool :=
  match a, q with
  | [], _ :: _ => true
  | k1 :: a', k2 :: q' => if decide (k1 = k2) then strict_prefix a' q' else false
  | _, _ => false
  end.

Definition ecutwfc_path : list string := ["scf"; "parameters"; "SYSTEM"; "ecutwfc"].
Definition ecutrho_path : list string := ["scf"; "parameters"; "SYSTEM"; "ecutrho"].

Definition retrieve_key : string := "ADDITIONAL_RETRIEVE_LIST".

(** All three sizes of a mesh are at least one. *)
Definition positive_sizes (mesh : Z * Z * Z) : bool :=
  (1 <=? mesh.1.1)%Z && (1 <=? mesh.1.2)%Z && (1 <=? mesh.2)%Z.

(** The nscf k-point specification of a tree is a mesh with such sizes. *)
Definition positive_nscf_mesh (inputs : value) : bool :=
  match lookup_path ["nscf"; "kpoints"] inputs with
  | Some (VKpoints (KMesh mesh _)) => positive_sizes mesh
  | _ => false
  end.

(** What the validation block does when the k-points entry is there. *)
Definition check_outcome (kpoints : value) : result value :=
  match kpoints with
  | VKpoints (KList _) => Raise (ValueError msg_explicit)
  | VKpoints (KMesh mesh offset) =>
      if offset_is_zero offset
      then get_explicit_kpoints kpoints
      else Raise (AssertionError msg_shift)
  | _ => Raise (AttributeError "get_kpoints_mesh")
  end.

(** A result that, if it is an exception, is none of the four the nscf
    k-point validations raise. *)
Definition quiet {A} (r : result A) : Prop :=
  ∀ e, r = Raise e → nscf_validation_error e = false.

(** [respects R m]: whatever its outcome, [m] takes a state to an
    [R]-related one, and it raises none of the validation errors. *)
Definition respects (R : relation state) {A} (m : M A) : Prop :=
  ∀ s s' r, m s = (s', r) → R s s' ∧ quiet r.

(** Only the entry [key] of [inputs] may have changed, and the graph has not. *)
Definition frame (key : string) (s s' : state) : Prop :=
  wg s' = wg s ∧
  ∀ k q, k ≠ key → lookup_path (k :: q) (inputs s') = lookup_path (k :: q) (inputs s).

(** [inputs] has not changed. *)
Definition same_inputs (s s' : state) : Prop := inputs s' = inputs s.

(** Forgetting what is preserved: only the exceptions matter. *)
Definition any_state : relation state := λ _ _, True.

Definition is_dict (v : value) : bool :=
  match v with VDict _ => true | _ => false end.

(** The object at path [p] below [inputs] is a mapping. *)
Definition dict_at (p : list string) (s : state) : Prop :=
  ∃ d, sub p (inputs s) = Ok (VDict d).

(** An optional entry that is absent or a mapping. *)
Definition opt_dict (o : option value) : bool :=
  match o with
  | None | Some (VDict _) => true
  | Some _ => false
  end.

(** An optional entry that is absent or a number. *)
Definition opt_number (o : option value) : bool :=
  match o with
  | None | Some (VInt _) | Some (VFloat _) | Some (VBool _) => true
  | Some _ => false
  end.

(** Every optional entry the builder reads is, when the caller supplied it,
    of the type the builder uses it at: a mapping, or a number for the
    wavefunction cutoff. *)
Definition well_typed (i : value) : bool :=
  opt_dict (lookup_path ["scf"] i)
  && opt_dict (lookup_path ["scf"; "parameters"] i)
  && opt_dict (lookup_path ["scf"; "parameters"; "CONTROL"] i)
  && opt_dict (lookup_path ["scf"; "parameters"; "SYSTEM"] i)
  && opt_number (lookup_path ["scf"; "parameters"; "SYSTEM"; "ecutwfc"] i)
  && opt_dict (lookup_path ["scf"; "metadata"] i)
  && opt_dict (lookup_path ["nscf"; "parameters"] i)
  && opt_dict (lookup_path ["nscf"; "parameters"; "CONTROL"] i)
  && opt_dict (lookup_path ["nscf"; "metadata"] i)
  && opt_dict (lookup_path ["pw2wannier90"] i)
  && opt_dict (lookup_path ["pw2wannier90"; "settings"] i)
  && opt_dict (lookup_path ["pw2wannier90"; "parameters"] i)
  && opt_dict (lookup_path ["pw2wannier90"; "parameters"; "inputpp"] i)
  && opt_dict (lookup_path ["pw2wannier90"; "metadata"] i)
  && opt_dict (lookup_path ["wannier90"] i)
  && opt_dict (lookup_path ["wannier90"; "parameters"] i)
  && opt_dict (lookup_path ["wannier90"; "metadata"] i).

(** The caller supplied the entry at path [p]. *)
Definition supplies (i : value) (p : list string) : bool :=
  match lookup_path p i with Some _ => true | None => false end.

(** The three roles have a code, and every code given by its label is in
    the database. *)
Definition codes_resolve (reg : Registry) (codes : gmap string value) : Prop :=
  (∀ k label, codes !! k = Some (VStr label) → is_Some (find_code reg label))
  ∧ is_Some (codes !! "pw")
  ∧ is_Some (codes !! "pw2wannier90")
  ∧ is_Some (codes !! "wannier90").

(** C3, as the claim states it, for a call of the launcher on [inputs0]: the
    retrieve list bound to pw2wan holds every entry of the caller's list and
    the three patterns. *)
Definition C3_as_stated (inputs0 : value) : Prop :=
  ∀ st g l,
    Launch.run inputs0 = (st, Ok g) →
    lookup_path ["pw2wannier90"; "settings"; retrieve_key] inputs0 = Some (VList l) →
    ∃ l', node_lookup "pw2wan" "settings" [retrieve_key] g = Some (VList l')
          ∧ (∀ x, x ∈ l → x ∈ l')
          ∧ (∀ x, x ∈ [VStr "*.amn"; VStr "*.mmn"; VStr "*.eig"] → x ∈ l').

(** C6, as the claim states it, for a call of the launcher on [inputs0]: with
    an unshifted nscf mesh the call returns a graph in which both Wannier90
    tasks are bound to an explicit list of as many points as the product of
    the mesh sizes. *)
Definition C6_as_stated (inputs0 : value) : Prop :=
  ∀ n1 n2 n3 offset,
    lookup_path ["nscf"; "kpoints"] inputs0
      = Some (VKpoints (KMesh (n1, n2, n3) offset)) →
    offset_is_zero offset = true →
    ∃ g points,
      returned (Launch.run inputs0) = Some g
      ∧ task_input "w90_pp" "kpoints" g = Some (Data (VKpoints (KList points)))
      ∧ task_input "w90" "kpoints" g = Some (Data (VKpoints (KList points)))
      ∧ Z.of_nat (length points) = (n1 * n2 * n3)%Z.

(** C9, as the claim states it, for a call of the launcher on [inputs0]: a
    tree that passes the three validations gets a complete five-task graph. *)
Definition C9_as_stated (inputs0 : value) : Prop :=
  passes_nscf_checks inputs0 = true →
  ∃ g, returned (Launch.run inputs0) = Some g ∧ length (wg_tasks g) = 5%nat.

(** * Reasoning about the builder *)

(** ** Sequencing *)

Lemma bind_ok {A B} (m : M A) (f : A → M B) s s' b :
  (m ≫= f) s = (s', Ok b) →
  ∃ s1 a, m s = (s1, Ok a) ∧ f a s1 = (s', Ok b).
Proof.
  unfold mbind, M_bind. destruct (m s) as [s1 [a|e]]; [eauto | discriminate].
Qed.

Lemma bind_run {A B} (m : M A) (f : A → M B) s s1 a :
  m s = (s1, Ok a) → (m ≫= f) s = f a s1.
Proof. unfold mbind, M_bind. by intros ->. Qed.

Lemma bind_raise {A B} (m : M A) (f : A → M B) s s1 e :
  m s = (s1, Raise e) → (m ≫= f) s = (s1, Raise e).
Proof. unfold mbind, M_bind. by intros ->. Qed.

Lemma result_bind_ok {A B} (r : result A) (f : A → result B) b :
  r ≫= f = Ok b → ∃ a, r = Ok a ∧ f a = Ok b.
Proof. destruct r; [eauto | discriminate]. Qed.

Lemma expr_inv {A} (f : value → result A) s s' r :
  expr f s = (s', r) → s' = s ∧ r = f (inputs s).
Proof. unfold expr. by intros [= <- <-]. Qed.

Lemma lift_inv {A} (x : result A) s s' r :
  lift x s = (s', r) → s' = s ∧ r = x.
Proof. unfold lift. by intros [= <- <-]. Qed.

Lemma mutate_ok p f s s' u :
  mutate p f s = (s', Ok u) →
  wg s' = wg s ∧ at_path p f (inputs s) = Ok (inputs s').
Proof.
  unfold mutate. destruct (at_path p f (inputs s)); [|discriminate].
  by intros [= <- _].
Qed.

Lemma mutate_raise p f s s' e :
  mutate p f s = (s', Raise e) → s' = s ∧ at_path p f (inputs s) = Raise e.
Proof.
  unfold mutate. destruct (at_path p f (inputs s)); [discriminate|].
  by intros [= <- <-].
Qed.

(** ** Paths in a tree *)

Lemma sub_app p q v : sub (p ++ q) v = (x ← sub p v; sub q x).
Proof.
  revert v. induction p as [|k p IH]; intros v; simpl; [done|].
  destruct (py_getitem v k); simpl; [apply IH | done].
Qed.

Lemma py_getitem_ok v k x :
  py_getitem v k = Ok x → ∃ d, v = VDict d ∧ d !! k = Some x.
Proof.
  destruct v; simpl; try discriminate.
  destruct (d !! k) eqn:E; [|discriminate]. intros [= ->]. eauto.
Qed.

Lemma lookup_path_cons k q v :
  lookup_path (k :: q) v =
  match v with
  | VDict d => x ← d !! k; lookup_path q x
  | _ => None
  end.
Proof.
  unfold lookup_path. simpl. destruct v; simpl; try done.
  by destruct (d !! k).
Qed.

Lemma lookup_path_snoc p k v d :
  sub p v = Ok (VDict d) → lookup_path (p ++ [k]) v = d !! k.
Proof.
  intros H. unfold lookup_path. rewrite sub_app, H. simpl.
  by destruct (d !! k).
Qed.

Lemma lookup_path_sub p v x : lookup_path p v = Some x ↔ sub p v = Ok x.
Proof.
  unfold lookup_path. destruct (sub p v); split; congruence.
Qed.

(** Below an absent or non-mapping node there is nothing. *)
Lemma lookup_path_app_None p q v :
  lookup_path p v = None → lookup_path (p ++ q) v = None.
Proof.
  unfold lookup_path. rewrite sub_app. by destruct (sub p v).
Qed.

(** What a mutation at [p] leaves at [p]. *)
Lemma at_path_sub p f v v' :
  at_path p f v = Ok v' →
  ∃ x y, sub p v = Ok x ∧ f x = Ok y ∧ sub p v' = Ok y.
Proof.
  revert v v'. induction p as [|k p IH]; intros v v' H; simpl in *.
  - eauto.
  - apply result_bind_ok in H as (x & Hget & H).
    apply result_bind_ok in H as (x' & Hat & Hset).
    apply py_getitem_ok in Hget as (d & -> & Hd).
    simpl in Hset. injection Hset as <-.
    destruct (IH _ _ Hat) as (x0 & y & Hx0 & Hy & Hx').
    exists x0, y. simpl. rewrite Hd. simpl. rewrite lookup_insert_eq. simpl. done.
Qed.

(** A mutation at [p] is invisible along any path that parts from [p]. *)
Lemma at_path_frame p q f v v' :
  diverge p q = true → at_path p f v = Ok v' → sub q v' = sub q v.
Proof.
  revert q v v'. induction p as [|k p IH]; intros q v v' Hd H; [done|].
  destruct q as [|k' q]; [done|]. simpl in *.
  apply result_bind_ok in H as (x & Hget & H).
  apply result_bind_ok in H as (x' & Hat & Hset).
  apply py_getitem_ok in Hget as (d & -> & Hk).
  simpl in Hset. injection Hset as <-. simpl.
  destruct (decide (k = k')) as [<-|Hne].
  - rewrite lookup_insert_eq, Hk. simpl. eauto.
  - by rewrite lookup_insert_ne.
Qed.

Lemma at_path_frame_lookup p q f v v' :
  diverge p q = true → at_path p f v = Ok v' →
  lookup_path q v' = lookup_path q v.
Proof. intros Hd H. unfold lookup_path. by rewrite (at_path_frame _ _ _ _ _ Hd H). Qed.

(** A mutation below a mapping leaves a mapping at the root. *)
Lemma at_path_cons_dict k p f v v' :
  at_path (k :: p) f v = Ok v' →
  ∃ d x x', v = VDict d ∧ d !! k = Some x ∧ at_path p f x = Ok x'
            ∧ v' = VDict (<[k:=x']> d).
Proof.
  simpl. intros H.
  apply result_bind_ok in H as (x & Hget & H).
  apply result_bind_ok in H as (x' & Hat & Hset).
  apply py_getitem_ok in Hget as (d & -> & Hk).
  simpl in Hset. injection Hset as <-. eauto 10.
Qed.

(** ** Which exceptions a step can raise *)

Lemma quiet_ok {A} (a : A) : quiet (Ok a).
Proof. intros e. discriminate. Qed.

Lemma quiet_bind {A B} (r : result A) (f : A → result B) :
  quiet r → (∀ a, quiet (f a)) → quiet (r ≫= f).
Proof.
  intros Hr Hf. destruct r as [a|e]; simpl; [apply Hf|].
  intros e' [= <-]. by apply (Hr e).
Qed.

Ltac quiet_cases :=
  unfold quiet; intros;
  repeat (case_match; simplify_eq/=); done.

Lemma quiet_in_keys k v : quiet (py_in_keys k v).
Proof. unfold py_in_keys. quiet_cases. Qed.
Lemma quiet_getitem v k : quiet (py_getitem v k).
Proof. unfold py_getitem. quiet_cases. Qed.
Lemma quiet_get v k dflt : quiet (py_get v k dflt).
Proof. unfold py_get. quiet_cases. Qed.
Lemma quiet_setitem k x v : quiet (py_setitem k x v).
Proof. unfold py_setitem. quiet_cases. Qed.
Lemma quiet_update o v : quiet (py_update o v).
Proof. unfold py_update. quiet_cases. Qed.
Lemma quiet_mul_float v f : quiet (py_mul_float v f).
Proof. unfold py_mul_float. quiet_cases. Qed.
Lemma quiet_orm_Dict v : quiet (orm_Dict v).
Proof. unfold orm_Dict. quiet_cases. Qed.
Lemma quiet_get_kpoints_mesh v : quiet (get_kpoints_mesh v).
Proof. unfold get_kpoints_mesh. quiet_cases. Qed.
Lemma quiet_code_of codes k : quiet (code_of codes k).
Proof. apply quiet_getitem. Qed.
Lemma quiet_load_code reg label : quiet (load_code reg label).
Proof. unfold load_code. quiet_cases. Qed.
Lemma quiet_load_pseudos reg family structure :
  quiet (load_pseudos reg family structure).
Proof. unfold load_pseudos. quiet_cases. Qed.

Lemma quiet_sub p v : quiet (sub p v).
Proof.
  revert v. induction p as [|k p IH]; intros v; simpl.
  - apply quiet_ok.
  - apply quiet_bind; [apply quiet_getitem | done].
Qed.

Lemma quiet_at_path p f v : (∀ x, quiet (f x)) → quiet (at_path p f v).
Proof.
  intros Hf. revert v. induction p as [|k p IH]; intros v; simpl; [done|].
  apply quiet_bind; [apply quiet_getitem | intros x].
  apply quiet_bind; [done | intros x'; apply quiet_setitem].
Qed.

Lemma quiet_resolve_codes reg codes : quiet (resolve_codes reg codes).
Proof.
  unfold resolve_codes. generalize (Ok codes), (quiet_ok codes).
  intros r0 Hr0.
  apply (map_fold_weak_ind (λ r _, quiet r)); [done|].
  intros k v m r _ Hr. apply quiet_bind; [done | intros c].
  destruct v; try apply quiet_ok.
  apply quiet_bind; [apply quiet_load_code | intros; apply quiet_ok].
Qed.

Create HintDb quiet.
#[export] Hint Resolve quiet_ok quiet_in_keys quiet_getitem quiet_get
  quiet_setitem quiet_update quiet_mul_float quiet_orm_Dict
  quiet_get_kpoints_mesh quiet_code_of quiet_load_code quiet_load_pseudos
  quiet_sub : quiet.

(** ** What a step leaves untouched *)

#[export] Instance frame_preorder key : PreOrder (frame key).
Proof.
  split.
  - by intros s.
  - intros s1 s2 s3 [Hw1 H1] [Hw2 H2]. split; [congruence|].
    intros k q Hk. rewrite H2, H1; done.
Qed.

#[export] Instance same_inputs_preorder : PreOrder same_inputs.
Proof. split; [by intros s | intros s1 s2 s3; unfold same_inputs; congruence]. Qed.

Section Respects.
Context (R : relation state) `{!PreOrder R}.

Lemma respects_bind {A B} (m : M A) (f : A → M B) :
  respects R m → (∀ a, respects R (f a)) → respects R (m ≫= f).
Proof.
  intros Hm Hf s s' r. unfold mbind, M_bind.
  destruct (m s) as [s1 [a|e]] eqn:E; destruct (Hm _ _ _ E) as [HR Hq].
  - intros H. destruct (Hf _ _ _ _ H) as [HR' Hq'].
    split; [by etrans | done].
  - intros [= <- <-]. split; [done|].
    intros e' [= <-]. by apply (Hq e).
Qed.

Lemma respects_ret {A} (a : A) : respects R (mret a).
Proof. intros s s' r [= <- <-]. split; [done | apply quiet_ok]. Qed.

Lemma respects_lift {A} (r : result A) : quiet r → respects R (lift r).
Proof. intros Hq s s' r' [-> ->]%lift_inv. done. Qed.

Lemma respects_expr {A} (f : value → result A) :
  (∀ v, quiet (f v)) → respects R (expr f).
Proof. intros Hq s s' r [-> ->]%expr_inv. done. Qed.

Lemma respects_has_key p k : respects R (has_key p k).
Proof.
  apply respects_expr. intros v.
  apply quiet_bind; [apply quiet_sub | apply quiet_in_keys].
Qed.

Lemma respects_get_item p k : respects R (get_item p k).
Proof.
  apply respects_expr. intros v.
  apply quiet_bind; [apply quiet_sub | intros; apply quiet_getitem].
Qed.

Lemma respects_get_default p k dflt : respects R (get_default p k dflt).
Proof.
  apply respects_expr. intros v.
  apply quiet_bind; [apply quiet_sub | intros; apply quiet_get].
Qed.

Lemma respects_unless b (body : M unit) :
  respects R body → respects R (unless b body).
Proof. destruct b; [intros _; apply respects_ret | done]. Qed.
End Respects.

(** A mutation below the entry [key] stays within the frame of [key]. *)
Lemma respects_mutate_below key p f :
  (∀ x, quiet (f x)) → respects (frame key) (mutate (key :: p) f).
Proof.
  intros Hf s s' [u|e] H.
  - apply mutate_ok in H as [Hwg H]. split; [|apply quiet_ok].
    split; [done|]. intros k q Hk.
    apply at_path_frame_lookup with (q := k :: q) in H; [done|].
    simpl. by rewrite decide_False.
  - apply mutate_raise in H as [-> H]. split; [done|].
    intros e' [= <-]. eapply quiet_at_path; done.
Qed.

(** So does the assignment of the entry itself. *)
Lemma respects_set_top key x : respects (frame key) (set_item [] key x).
Proof.
  intros s s' [u|e] H; unfold set_item in H.
  - apply mutate_ok in H as [Hwg H]. split; [|apply quiet_ok].
    split; [done|]. intros k q Hk. simpl in H.
    destruct (inputs s) eqn:E; simplify_eq/=.
    rewrite <- H, !lookup_path_cons. by rewrite lookup_insert_ne.
  - apply mutate_raise in H as [-> H]. split; [done|].
    intros e' [= <-]. eapply quiet_setitem; done.
Qed.

Lemma respects_init_top key : respects (frame key) (init_missing [] key).
Proof.
  apply (respects_bind (frame key)); [apply (respects_has_key (frame key)) | intros b].
  apply (respects_unless (frame key)), respects_set_top.
Qed.

Lemma respects_init_below key p k :
  respects (frame key) (init_missing (key :: p) k).
Proof.
  apply (respects_bind (frame key)); [apply (respects_has_key (frame key)) | intros b].
  apply (respects_unless (frame key)), respects_mutate_below.
  intros; apply quiet_setitem.
Qed.

Lemma respects_update_below key p o :
  respects (frame key) (update (key :: p) o).
Proof. apply respects_mutate_below. intros; apply quiet_update. Qed.

Lemma respects_set_below key p k x :
  respects (frame key) (set_item (key :: p) k x).
Proof. apply respects_mutate_below. intros; apply quiet_setitem. Qed.

Lemma respects_default_inputs key : respects (frame key) default_inputs.
Proof.
  intros s s' r. unfold default_inputs.
  destruct (inputs s) eqn:E; intros [= <- <-]; (split; [|apply quiet_ok]);
    try done.
  split; [done|]. intros k q _. simpl. by rewrite E, !lookup_path_cons.
Qed.

(** One rule after the other, through a whole phase. *)
(** The graph operations do not touch [inputs]. *)
Lemma respects_new_workgraph name : respects same_inputs (new_workgraph name).
Proof. intros s s' r [= <- <-]. split; [done | apply quiet_ok]. Qed.

Lemma respects_add_task cls name : respects same_inputs (add_task cls name).
Proof.
  intros s s' r. unfold add_task.
  destruct (wg s); intros [= <- <-]; (split; [done|]);
    [apply quiet_ok | by intros e [= <-]].
Qed.

Lemma respects_task_set name kvs : respects same_inputs (task_set name kvs).
Proof.
  intros s s' r. unfold task_set.
  destruct (wg s); intros [= <- <-]; (split; [done|]);
    [apply quiet_ok | by intros e [= <-]].
Qed.

Lemma respects_return_wg : respects same_inputs return_wg.
Proof.
  intros s s' r. unfold return_wg.
  destruct (wg s); intros [= <- <-]; (split; [done|]);
    [apply quiet_ok | by intros e [= <-]].
Qed.

#[export] Instance any_state_preorder : PreOrder any_state.
Proof. by split. Qed.

Lemma respects_weaken R {A} (m : M A) : respects R m → respects any_state m.
Proof. intros H s s' r E. destruct (H _ _ _ E). done. Qed.

Ltac respects_step :=
  lazymatch goal with
  | |- respects ?R (_ ≫= _) => apply (respects_bind R); [| intros ?]
  | |- respects ?R (mret _) => apply (respects_ret R)
  | |- respects ?R (unless _ _) => apply (respects_unless R)
  | |- respects ?R (has_key _ _) => apply (respects_has_key R)
  | |- respects ?R (get_item _ _) => apply (respects_get_item R)
  | |- respects ?R (get_default _ _ _) => apply (respects_get_default R)
  | |- respects ?R (lift _) =>
      apply (respects_lift R); solve [eauto 6 using quiet_bind with quiet]
  | |- respects ?R (expr _) =>
      apply (respects_expr R); intros; solve [eauto 6 using quiet_bind with quiet]
  | |- respects (frame _) (init_missing [] _) => apply respects_init_top
  | |- respects (frame _) (init_missing (_ :: _) _) => apply respects_init_below
  | |- respects (frame _) (update (_ :: _) _) => apply respects_update_below
  | |- respects (frame _) (set_item (_ :: _) _ _) => apply respects_set_below
  | |- respects (frame _) default_inputs => apply respects_default_inputs
  | |- respects same_inputs (new_workgraph _) => apply respects_new_workgraph
  | |- respects same_inputs (add_task _ _) => apply respects_add_task
  | |- respects same_inputs (task_set _ _) => apply respects_task_set
  | |- respects same_inputs return_wg => apply respects_return_wg
  | |- respects _ (if ?b then _ else _) => destruct b
  end.

Ltac respects_phase := repeat (cbv zeta; respects_step).

Lemma scf_setup_frame : respects (frame "scf") scf_setup.
Proof. unfold scf_setup. respects_phase. Qed.

Lemma nscf_setup_frame : respects (frame "nscf") nscf_setup.
Proof. unfold nscf_setup. respects_phase. Qed.

Lemma pw2wan_setup_frame : respects (frame "pw2wannier90") pw2wan_setup.
Proof. unfold pw2wan_setup, pw2wannier_settings. respects_phase. Qed.

Lemma w90_setup_frame : respects (frame "wannier90") w90_setup.
Proof. unfold w90_setup. respects_phase. Qed.

Lemma build_graph_frame codes structure pseudos scf_md kp nscf_md pp st pw_md wp w_md :
  respects same_inputs
    (build_graph codes structure pseudos scf_md kp nscf_md pp st pw_md wp w_md).
Proof. unfold build_graph. respects_phase. Qed.

(** ** The nscf k-point validations *)

Lemma lookup_path_nscf_kpoints v kv :
  lookup_path ["nscf"; "kpoints"] v = Some kv →
  ∃ d n, v = VDict d ∧ d !! "nscf" = Some (VDict n) ∧ n !! "kpoints" = Some kv.
Proof.
  rewrite lookup_path_cons. destruct v; try done.
  destruct (d !! "nscf") as [x|] eqn:E; [|done]. simpl.
  rewrite lookup_path_cons. destruct x; try done.
  destruct (d0 !! "kpoints") as [y|] eqn:E'; [|done]. simpl.
  unfold lookup_path. simpl. intros [= ->]. eauto.
Qed.

(** Symbolic execution of a phase on a state whose tree is known through
    lookup equations. *)
Ltac use_lookup :=
  match goal with
  | H : ?m !! ?k = _ |- context [?m !! ?k] => rewrite H
  | H : inputs ?s = _ |- context [inputs ?s] => rewrite H
  end.

Ltac run_M :=
  unfold init_missing, has_key, get_item, get_default, set_item, update,
    mutate, expr, py_assert, unless, lift, raise, default_inputs, deepcopy,
    mbind, M_bind, mret, M_ret;
  repeat (cbn [result_bind result_ret inputs wg fst snd
               sub at_path py_in_keys py_getitem py_get py_setitem py_update
               py_mul_float orm_Dict get_kpoints get_kpoints_mesh
               get_kpoints_mesh_list get_explicit_kpoints default];
          try use_lookup).

Lemma nscf_kpoints_check_present s kv :
  lookup_path ["nscf"; "kpoints"] (inputs s) = Some kv →
  nscf_kpoints_check s = (s, check_outcome kv).
Proof.
  intros (d & n & Hd & Hn & Hk)%lookup_path_nscf_kpoints.
  unfold nscf_kpoints_check. run_M.
  destruct kv as [| | | | | | |[m o|pts|]| |]; run_M; try done.
  destruct (offset_is_zero o) eqn:Ho; run_M; unfold check_outcome; by rewrite Ho.
Qed.

Lemma nscf_kpoints_check_missing s :
  lookup_path ["nscf"; "kpoints"] (inputs s) = None →
  ∃ e, nscf_kpoints_check s = (s, Raise e).
Proof.
  intros H. unfold nscf_kpoints_check.
  destruct (inputs s) as [| | | | | |d| | |] eqn:Hd; run_M; eauto.
  rewrite lookup_path_cons in H.
  destruct (d !! "nscf") as [x|] eqn:Hn; run_M; [|eauto].
  simpl in H. rewrite lookup_path_cons in H.
  destruct x as [| | | | | |n| | |]; run_M; eauto.
  destruct (n !! "kpoints") as [y|] eqn:Hk; run_M; [done | eauto].
Qed.

Lemma nscf_kpoints_check_state s s' r :
  nscf_kpoints_check s = (s', r) → s' = s.
Proof.
  destruct (lookup_path ["nscf"; "kpoints"] (inputs s)) as [kv|] eqn:E.
  - rewrite (nscf_kpoints_check_present _ _ E). by intros [= <- _].
  - destruct (nscf_kpoints_check_missing _ E) as [e ->]. by intros [= <- _].
Qed.

(** ** Default-filling *)

Lemma py_in_keys_ok k v b :
  py_in_keys k v = Ok b →
  ∃ d, v = VDict d ∧ b = match d !! k with Some _ => true | None => false end.
Proof. destruct v; simpl; try done. intros [= <-]. eauto. Qed.

Lemma py_get_ok v k dflt x :
  py_get v k dflt = Ok x → ∃ d, v = VDict d ∧ x = default dflt (d !! k).
Proof. destruct v; simpl; try done. intros [= <-]. eauto. Qed.

Lemma py_update_ok o v y :
  py_update o v = Ok y → ∃ d d', v = VDict d ∧ o = VDict d' ∧ y = VDict (d' ∪ d).
Proof.
  destruct v; simpl; try done. destruct o; simpl; try done.
  intros [= <-]. eauto.
Qed.

Lemma py_setitem_ok k x v y :
  py_setitem k x v = Ok y → ∃ d, v = VDict d ∧ y = VDict (<[k:=x]> d).
Proof. destruct v; simpl; try done. intros [= <-]. eauto. Qed.

(** An assignment [v[p][k] = x] is invisible along any path that parts from
    [p ++ [k]]. *)
Lemma at_path_setitem_frame p k x q v v' :
  diverge (p ++ [k]) q = true →
  at_path p (py_setitem k x) v = Ok v' →
  lookup_path q v' = lookup_path q v.
Proof.
  revert q v v'. induction p as [|k0 p IH]; intros q v v' Hd H.
  - destruct q as [|k' q]; [done|]. simpl in *.
    destruct (decide (k = k')) as [->|Hne]; [by destruct q|].
    apply py_setitem_ok in H as (d & -> & ->).
    rewrite !lookup_path_cons. by rewrite lookup_insert_ne.
  - destruct q as [|k' q]; [done|].
    apply at_path_cons_dict in H as (d & x0 & x' & -> & Hk & Hat & ->).
    simpl in Hd. rewrite !lookup_path_cons.
    destruct (decide (k0 = k')) as [<-|Hne].
    + rewrite lookup_insert_eq, Hk. simpl. eauto.
    + by rewrite lookup_insert_ne.
Qed.

(** What [if k not in inputs[p].keys(): inputs[p][k] = {}] does: afterwards
    there is an entry [k], the one that was there or the empty mapping. *)
Lemma init_missing_ok p k s s' u :
  init_missing p k s = (s', Ok u) →
  wg s' = wg s ∧
  ∃ d, sub p (inputs s) = Ok (VDict d) ∧
       match d !! k with
       | Some _ => s' = s
       | None => at_path p (py_setitem k (VDict ∅)) (inputs s) = Ok (inputs s')
       end.
Proof.
  unfold init_missing. intros H.
  apply bind_ok in H as (s1 & b & Hb & H).
  apply expr_inv in Hb as [-> Hb]. symmetry in Hb.
  apply result_bind_ok in Hb as (dv & Hsub & Hb).
  apply py_in_keys_ok in Hb as (d & -> & ->).
  destruct (d !! k) eqn:Hk; simpl in H.
  - injection H as <-. split; [done|]. exists d. by rewrite Hk.
  - apply mutate_ok in H as [Hwg H]. split; [done|]. exists d. by rewrite Hk.
Qed.

(** It changes nothing strictly below the entry... *)
Lemma init_missing_below p k s s' u j q :
  init_missing p k s = (s', Ok u) →
  lookup_path (p ++ k :: j :: q) (inputs s') =
  lookup_path (p ++ k :: j :: q) (inputs s).
Proof.
  intros (_ & d & Hsub & H)%init_missing_ok.
  destruct (d !! k) eqn:Hk; [by subst|].
  apply at_path_sub in H as (x & y & Hx & Hy & Hsub').
  rewrite Hsub in Hx. injection Hx as <-. simpl in Hy. injection Hy as <-.
  unfold lookup_path. rewrite !sub_app, Hsub, Hsub'. simpl.
  rewrite lookup_insert_eq, Hk. simpl. by rewrite lookup_empty.
Qed.

(** ... and nothing along a path that parts from it. *)
Lemma init_missing_frame p k s s' u q :
  diverge (p ++ [k]) q = true →
  init_missing p k s = (s', Ok u) →
  lookup_path q (inputs s') = lookup_path q (inputs s).
Proof.
  intros Hd (_ & d & Hsub & H)%init_missing_ok.
  destruct (d !! k) eqn:Hk; [by subst|].
  by eapply at_path_setitem_frame.
Qed.

(** Afterwards the entry is a mapping or whatever the caller had put. *)
Lemma init_missing_present p k s s' u :
  init_missing p k s = (s', Ok u) →
  ∃ d x, sub p (inputs s') = Ok (VDict d) ∧ d !! k = Some x.
Proof.
  intros (_ & d & Hsub & H)%init_missing_ok.
  destruct (d !! k) as [x|] eqn:Hk.
  - subst. eauto.
  - apply at_path_sub in H as (x & y & Hx & Hy & Hsub').
    rewrite Hsub in Hx. injection Hx as <-. simpl in Hy. injection Hy as <-.
    eexists _, _. split; [done|]. apply lookup_insert_eq.
Qed.

Lemma default_inputs_ok s s' r :
  default_inputs s = (s', r) →
  r = Ok tt ∧ wg s' = wg s ∧
  ∀ k q, lookup_path (k :: q) (inputs s') = lookup_path (k :: q) (inputs s).
Proof.
  unfold default_inputs. destruct (inputs s) eqn:E; intros [= <- <-];
    (split; [done|]); (split; [done|]);
    intros ??; simpl; rewrite ?E, !lookup_path_cons, ?lookup_empty; done.
Qed.

Lemma update_ok p o s s' u :
  update p o s = (s', Ok u) →
  ∃ d d', o = VDict d' ∧ sub p (inputs s) = Ok (VDict d)
          ∧ sub p (inputs s') = Ok (VDict (d' ∪ d))
          ∧ at_path p (py_update o) (inputs s) = Ok (inputs s').
Proof.
  intros [_ H]%mutate_ok.
  destruct (at_path_sub _ _ _ _ H) as (x & y & Hx & Hy & Hsub').
  apply py_update_ok in Hy as (d & d' & -> & -> & ->). eauto 10.
Qed.

(** *** The scf stage (lines 59-87) *)

(** After the scf block: [calculation] is forced to scf; [ecutwfc] is the
    caller's, or 30.0; [ecutrho] is eight times [ecutwfc]. *)
Lemma scf_setup_post s s' md :
  scf_setup s = (s', Ok md) →
  let w := default (VFloat 30) (lookup_path ecutwfc_path (inputs s)) in
  lookup_path ["scf"; "parameters"; "CONTROL"; "calculation"] (inputs s')
    = Some (VStr "scf") ∧
  lookup_path ecutwfc_path (inputs s') = Some w ∧
  ∃ rho, py_mul_float w 8 = Ok rho ∧
         lookup_path ecutrho_path (inputs s') = Some rho.
Proof.
  unfold scf_setup, ecutwfc_path, ecutrho_path. intros H.
  apply bind_ok in H as (s0 & [] & H0 & H).
  apply bind_ok in H as (s1 & [] & H1 & H).
  apply bind_ok in H as (s2 & [] & H2 & H).
  apply bind_ok in H as (s3 & [] & H3 & H).
  apply bind_ok in H as (s4 & [] & H4 & H).
  apply bind_ok in H as (? & ecutwfc & He & H). apply expr_inv in He as [-> He].
  apply bind_ok in H as (? & w & Hw & H). apply expr_inv in Hw as [-> Hw].
  apply bind_ok in H as (? & rho & Hrho & H). apply lift_inv in Hrho as [-> Hrho].
  apply bind_ok in H as (s5 & [] & H5 & H).
  apply bind_ok in H as (s6 & [] & H6 & H).
  apply bind_ok in H as (? & user & Hu & H). apply expr_inv in Hu as [-> _].
  apply lift_inv in H as [-> _].
  (* the caller's ecutwfc is still there when it is read *)
  set (P := ["scf"; "parameters"; "SYSTEM"; "ecutwfc"]).
  assert (lookup_path P (inputs s4) = lookup_path P (inputs s)) as Hframe.
  { unfold P. apply default_inputs_ok in H0 as (_ & _ & H0).
    pose proof (H0 "scf" ["parameters"; "SYSTEM"; "ecutwfc"]) as E0.
    pose proof (init_missing_below [] "scf" _ _ _ "parameters"
                  ["SYSTEM"; "ecutwfc"] H1) as E1.
    pose proof (init_missing_below ["scf"] "parameters" _ _ _ "SYSTEM"
                  ["ecutwfc"] H2) as E2.
    pose proof (init_missing_frame ["scf"; "parameters"] "CONTROL" _ _ _
                  ["scf"; "parameters"; "SYSTEM"; "ecutwfc"] eq_refl H3) as E3.
    pose proof (init_missing_below ["scf"; "parameters"] "SYSTEM" _ _ _
                  "ecutwfc" [] H4) as E4.
    simpl in E1, E2, E4. congruence. }
  symmetry in He. apply result_bind_ok in He as (dv & Hsys & He).
  apply py_get_ok in He as (sys & -> & ->).
  symmetry in Hw. apply result_bind_ok in Hw as (dv & Hsys' & Hw).
  rewrite Hsys in Hsys'. injection Hsys' as <-.
  apply py_get_ok in Hw as (? & [= <-] & ->).
  assert (lookup_path P (inputs s4) = sys !! "ecutwfc") as Hsys4.
  { apply (lookup_path_snoc ["scf"; "parameters"; "SYSTEM"]), Hsys. }
  rewrite Hframe in Hsys4. simpl. rewrite Hsys4.
  apply update_ok in H5 as (c & c' & [= <-] & Hc & Hc' & Hat5).
  apply update_ok in H6 as (sys5 & u & [= <-] & Hs5 & Hs6 & Hat6).
  split; [|split].
  - rewrite (at_path_frame_lookup ["scf"; "parameters"; "SYSTEM"]
               ["scf"; "parameters"; "CONTROL"; "calculation"] _ _ _ eq_refl Hat6).
    etrans; [apply (lookup_path_snoc ["scf"; "parameters"; "CONTROL"] _ _ _ Hc')|].
    apply lookup_union_Some_l, lookup_singleton_eq.
  - etrans; [apply (lookup_path_snoc ["scf"; "parameters"; "SYSTEM"] _ _ _ Hs6)|].
    apply lookup_union_Some_l, lookup_insert_eq.
  - exists rho. split; [by symmetry|].
    etrans; [apply (lookup_path_snoc ["scf"; "parameters"; "SYSTEM"] _ _ _ Hs6)|].
    apply lookup_union_Some_l. by rewrite lookup_insert_ne, lookup_singleton_eq.
Qed.

(** ** The call as a whole *)

(** Whatever follows the validations raises none of their errors. *)
Lemma after_check_quiet codes structure pseudos scf_md kp :
  respects any_state
    (nscf_setup ≫= λ nscf_md, pw2wan_setup ≫= λ pw2wan, w90_setup ≫= λ w90,
       build_graph codes structure pseudos scf_md kp nscf_md
         pw2wan.1.1 pw2wan.1.2 pw2wan.2 w90.1 w90.2).
Proof.
  apply (respects_bind any_state);
    [apply (respects_weaken _ _ nscf_setup_frame) | intros nscf_md].
  apply (respects_bind any_state);
    [apply (respects_weaken _ _ pw2wan_setup_frame) | intros pw2wan].
  apply (respects_bind any_state);
    [apply (respects_weaken _ _ w90_setup_frame) | intros w90].
  apply (respects_weaken _ _ (build_graph_frame _ _ _ _ _ _ _ _ _ _ _)).
Qed.

(** The body stops at the first phase that raises. *)
Lemma workgraph_body_inv codes structure pseudos s s' r :
  workgraph_body codes structure pseudos s = (s', r) →
  ∃ s1 r1, scf_setup s = (s1, r1) ∧ frame "scf" s s1 ∧
    match r1 with
    | Raise e => s' = s1 ∧ r = Raise e ∧ nscf_validation_error e = false
    | Ok scf_md =>
        ∃ r2, nscf_kpoints_check s1 = (s1, r2) ∧
          match r2 with
          | Raise e => s' = s1 ∧ r = Raise e
          | Ok kp =>
              quiet r ∧
              (nscf_setup ≫= λ nscf_md, pw2wan_setup ≫= λ pw2wan,
               w90_setup ≫= λ w90,
                 build_graph codes structure pseudos scf_md kp nscf_md
                   pw2wan.1.1 pw2wan.1.2 pw2wan.2 w90.1 w90.2) s1 = (s', r)
          end
    end.
Proof.
  unfold workgraph_body. intros H.
  destruct (scf_setup s) as [s1 [scf_md|e1]] eqn:E1;
    destruct (scf_setup_frame _ _ _ E1) as [Hframe Hq1];
    exists s1; eexists; (split; [done|]); (split; [done|]).
  - rewrite (bind_run _ _ _ _ _ E1) in H.
    destruct (nscf_kpoints_check s1) as [s1' [kp|e2]] eqn:E2;
      pose proof (nscf_kpoints_check_state _ _ _ E2) as ->;
      eexists; (split; [done|]).
    + rewrite (bind_run _ _ _ _ _ E2) in H. split; [|done].
      by destruct (after_check_quiet _ _ _ _ _ _ _ _ H).
    + rewrite (bind_raise _ _ _ _ _ E2) in H. by injection H as <- <-.
  - rewrite (bind_raise _ _ _ _ _ E1) in H. injection H as <- <-. eauto.
Qed.

(** The call first resolves the codes and the pseudopotentials. *)
Lemma minimal_w90_workgraph_inv reg codes structure family inputs0 st r :
  minimal_w90_workgraph reg codes structure family inputs0 = (st, r) →
  (∃ e, st = MkState inputs0 None ∧ r = Raise e ∧ nscf_validation_error e = false)
  ∨ (∃ c p, resolve_codes reg codes = Ok c
            ∧ load_pseudos reg family structure = Ok p
            ∧ workgraph_body c structure p (MkState inputs0 None) = (st, r)).
Proof.
  unfold minimal_w90_workgraph, lift, mbind, M_bind.
  destruct (resolve_codes reg codes) as [c|e] eqn:Ec.
  - destruct (load_pseudos reg family structure) as [p|e] eqn:Ep.
    + intros H. right. eauto.
    + intros [= <- <-]. left. eexists. split; [done|]. split; [done|].
      by apply (quiet_load_pseudos reg family structure).
  - intros [= <- <-]. left. eexists. split; [done|]. split; [done|].
    by apply (quiet_resolve_codes reg codes).
Qed.

(** A validation error leaves the state as the scf block made it. *)
Lemma raises_validation_error reg codes structure family inputs0 st e :
  minimal_w90_workgraph reg codes structure family inputs0 = (st, Raise e) →
  nscf_validation_error e = true →
  ∃ scf_md, scf_setup (MkState inputs0 None) = (st, Ok scf_md)
            ∧ nscf_kpoints_check st = (st, Raise e).
Proof.
  intros H He.
  apply minimal_w90_workgraph_inv in H as [(e' & _ & [= <-] & Hq)|(c & p & _ & _ & H)];
    [congruence|].
  apply workgraph_body_inv in H as (s1 & [scf_md|e1] & E1 & _ & H).
  - destruct H as ([kp|e2] & E2 & H).
    + destruct H as [Hq _]. specialize (Hq e eq_refl). congruence.
    + destruct H as (-> & [= <-]). eauto.
  - destruct H as (_ & [= <-] & Hq). congruence.
Qed.

(** ** The explicit k-point list *)

Lemma length_bind_const {A B} (f : A → list B) (l : list A) c :
  (∀ x, length (f x) = c) → length (l ≫= f) = (length l * c)%nat.
Proof.
  intros Hf. induction l as [|x l IH]; [done|].
  rewrite bind_cons, length_app, Hf, IH. simpl. lia.
Qed.

Lemma length_qrange n : length (qrange n) = Z.to_nat n.
Proof. unfold qrange. by rewrite length_fmap, length_seq. Qed.

(** One point for each cell of the mesh. *)
Lemma length_mgrid_points n1 n2 n3 o :
  length (mgrid_points (n1, n2, n3) o)
  = (Z.to_nat n1 * Z.to_nat n2 * Z.to_nat n3)%nat.
Proof.
  destruct o as [[o1 o2] o3]. unfold mgrid_points.
  rewrite (length_bind_const _ _ (Z.to_nat n2 * Z.to_nat n3)%nat).
  - rewrite length_qrange. lia.
  - intros i. rewrite (length_bind_const _ _ (Z.to_nat n3)).
    + by rewrite length_qrange.
    + intros j. rewrite (length_bind_const _ _ 1%nat); [|done].
      rewrite length_qrange. lia.
Qed.

(** All sizes of a mesh are at least one. *)
Lemma positive_sizes_spec n1 n2 n3 :
  positive_sizes (n1, n2, n3) = true ↔ (1 ≤ n1 ∧ 1 ≤ n2 ∧ 1 ≤ n3)%Z.
Proof. unfold positive_sizes. rewrite !andb_true_iff, !Z.leb_le. tauto. Qed.

(** With sizes of at least one, the conversion returns the points of the
    mesh, as many as the product of the sizes. *)
Lemma get_explicit_kpoints_positive mesh offset :
  positive_sizes mesh = true →
  get_explicit_kpoints (VKpoints (KMesh mesh offset))
    = Ok (VKpoints (KList (mgrid_points mesh offset)))
  ∧ Z.of_nat (length (mgrid_points mesh offset)) = (mesh.1.1 * mesh.1.2 * mesh.2)%Z.
Proof.
  destruct mesh as [[n1 n2] n3]. intros (H1 & H2 & H3)%positive_sizes_spec.
  assert (Z.of_nat (length (mgrid_points (n1, n2, n3) offset))
          = (n1 * n2 * n3)%Z) as Hlen.
  { rewrite length_mgrid_points. lia. }
  split; [|done].
  unfold get_explicit_kpoints, get_kpoints_mesh_list, mesh_points.
  cbn [get_kpoints_mesh mbind result_bind].
  destruct (n1 <? 0)%Z eqn:E1; [lia|].
  destruct (n2 <? 0)%Z eqn:E2; [lia|].
  destruct (n3 <? 0)%Z eqn:E3; [lia|]. cbn [orb].
  destruct (mgrid_points (n1, n2, n3) offset) eqn:E; [|done].
  simpl in Hlen. nia.
Qed.

(** ** The wiring *)

Lemma sub_snoc p k v : sub (p ++ [k]) v = (d ← sub p v; py_getitem d k).
Proof.
  rewrite sub_app. destruct (sub p v) as [d|]; simpl; [|done].
  by destruct (py_getitem d k).
Qed.

(** Lines 142-145: the retrieve list is set to the three patterns; every
    other entry of the settings is the caller's. *)
Lemma pw2wannier_settings_ok s s' v :
  pw2wannier_settings s = (s', Ok v) →
  ∃ d, v = VDict d
       ∧ d !! retrieve_key = Some retrieve_patterns
       ∧ ∀ k, k ≠ retrieve_key →
           d !! k = lookup_path ["pw2wannier90"; "settings"; k] (inputs s).
Proof.
  unfold pw2wannier_settings, retrieve_key. intros H.
  apply bind_ok in H as (? & settings & Hs & H). apply expr_inv in Hs as [-> Hs].
  apply bind_ok in H as (? & attached & Ha & H). apply expr_inv in Ha as [-> Ha].
  symmetry in Hs. apply result_bind_ok in Hs as (dv & Hsec & Hs).
  apply py_get_ok in Hs as (sec & -> & ->).
  symmetry in Ha. apply result_bind_ok in Ha as (dv & Hsec' & Ha).
  rewrite Hsec in Hsec'. injection Hsec' as <-. simpl in Ha. injection Ha as <-.
  pose proof (lookup_path_snoc ["pw2wannier90"] "settings" _ _ Hsec) as Hset.
  simpl in Hset.
  destruct (sec !! "settings") as [x|] eqn:Hx; simpl in H.
  - apply bind_ok in H as (s1 & [] & Hu & H).
    apply update_ok in Hu as (d & u & [= <-] & Hd & Hd' & _).
    apply expr_inv in H as [-> H]. symmetry in H.
    rewrite <- (sub_snoc ["pw2wannier90"] "settings") in H.
    change (sub ["pw2wannier90"; "settings"] (inputs s1) = Ok v) in H.
    rewrite Hd' in H. injection H as <-.
    eexists. split; [done|]. split.
    + apply lookup_union_Some_l, lookup_singleton_eq.
    + intros k Hk. rewrite lookup_union_r by by apply lookup_singleton_ne.
      symmetry. apply (lookup_path_snoc ["pw2wannier90"; "settings"] k _ _ Hd).
  - apply lift_inv in H as [-> H]. simpl in H. injection H as ->.
    eexists. split; [done|]. split.
    + apply lookup_union_Some_l, lookup_singleton_eq.
    + intros k Hk. rewrite lookup_union_r by by apply lookup_singleton_ne.
      rewrite lookup_empty. symmetry.
      apply (lookup_path_app_None ["pw2wannier90"; "settings"] [k]), Hset.
Qed.

(** Lines 130-152: the settings that come out are those of lines 142-145,
    read in the tree as the caller and the two stages before left it. *)
Lemma pw2wan_setup_ok s s' r :
  pw2wan_setup s = (s', Ok r) →
  ∃ d, r.1.2 = VDict d
       ∧ d !! retrieve_key = Some retrieve_patterns
       ∧ ∀ k, k ≠ retrieve_key →
           d !! k = lookup_path ["pw2wannier90"; "settings"; k] (inputs s).
Proof.
  unfold pw2wan_setup. intros H.
  apply bind_ok in H as (s1 & [] & H1 & H).
  apply bind_ok in H as (s2 & settings & Hs & H).
  apply pw2wannier_settings_ok in Hs as (d & -> & Hr & Hk).
  repeat (apply bind_ok in H as (? & ? & _ & H)).
  injection H as _ <-. exists d. split; [done|]. split; [done|].
  intros k Hne. rewrite (Hk k Hne).
  apply (init_missing_below [] "pw2wannier90" _ _ _ "settings" [k] H1).
Qed.

(** Lines 175-238: what the five [set] calls bind. *)
Lemma build_graph_ok codes structure pseudos scf_md kp nscf_md pp settings
    pw_md wp w_md s s' g :
  build_graph codes structure pseudos scf_md kp nscf_md pp settings pw_md
    wp w_md s = (s', Ok g) →
  task_name <$> wg_tasks g = ["scf"; "nscf"; "w90_pp"; "pw2wan"; "w90"] ∧
  wg_links g = [("scf", "remote_folder", "nscf", "parent_folder");
                ("nscf", "remote_folder", "pw2wan", "parent_folder");
                ("w90_pp", "nnkp_file", "pw2wan", "nnkp_file");
                ("pw2wan", "remote_folder", "w90", "remote_input_folder")] ∧
  task_input "w90_pp" "kpoints" g = Some (Data kp) ∧
  task_input "w90" "kpoints" g = Some (Data kp) ∧
  (∃ d, settings = VDict d
        ∧ task_input "pw2wan" "settings" g = Some (Data (VDictNode d))) ∧
  task_input "w90_pp" "metadata" g = Some (Data metadata_default_no_mpi) ∧
  task_input "w90" "metadata" g = Some (Data w_md).
Proof.
  unfold build_graph. intros H.
  repeat
    (let Hs := fresh "Hstep" in
     apply bind_ok in H as (? & ? & Hs & H);
     first
       [ apply lift_inv in Hs as [-> Hs]; symmetry in Hs
       | apply expr_inv in Hs as [-> Hs]; symmetry in Hs
       | unfold new_workgraph, add_task, task_set in Hs; simpl in Hs;
         injection Hs as <- ]).
  unfold return_wg in H. simpl in H. injection H as _ <-.
  destruct settings; try done. simpl in *. simplify_eq.
  repeat split; try done. eauto.
Qed.

(** A call that returns a graph went through every phase. *)
Lemma workgraph_body_ok codes structure pseudos s s' g :
  workgraph_body codes structure pseudos s = (s', Ok g) →
  ∃ s1 scf_md kp s2 nscf_md s3 pw2wan s4 w90,
    scf_setup s = (s1, Ok scf_md)
    ∧ nscf_kpoints_check s1 = (s1, Ok kp)
    ∧ nscf_setup s1 = (s2, Ok nscf_md)
    ∧ pw2wan_setup s2 = (s3, Ok pw2wan)
    ∧ w90_setup s3 = (s4, Ok w90)
    ∧ build_graph codes structure pseudos scf_md kp nscf_md
        pw2wan.1.1 pw2wan.1.2 pw2wan.2 w90.1 w90.2 s4 = (s', Ok g).
Proof.
  intros H.
  apply workgraph_body_inv in H as (s1 & [scf_md|e1] & E1 & _ & H);
    [|by destruct H as (_ & ? & _)].
  destruct H as ([kp|e2] & E2 & H); [|by destruct H].
  destruct H as [_ H].
  apply bind_ok in H as (s2 & nscf_md & E3 & H).
  apply bind_ok in H as (s3 & pw2wan & E4 & H).
  apply bind_ok in H as (s4 & w90 & E5 & H).
  eauto 15.
Qed.

Lemma minimal_w90_workgraph_ok reg codes structure family inputs0 st g :
  minimal_w90_workgraph reg codes structure family inputs0 = (st, Ok g) →
  ∃ c p, resolve_codes reg codes = Ok c
         ∧ load_pseudos reg family structure = Ok p
         ∧ workgraph_body c structure p (MkState inputs0 None) = (st, Ok g).
Proof.
  intros [(e & _ & ? & _)|H]%minimal_w90_workgraph_inv; done.
Qed.

(** ** Running a phase on a well-typed tree *)

Lemma dict_at_lookup p s :
  dict_at p s ↔ ∃ d, lookup_path p (inputs s) = Some (VDict d).
Proof. unfold dict_at. by setoid_rewrite lookup_path_sub. Qed.

Lemma lookup_path_snoc_inv p k v x :
  lookup_path (p ++ [k]) v = Some x →
  ∃ d, sub p v = Ok (VDict d) ∧ d !! k = Some x.
Proof.
  rewrite lookup_path_sub, sub_snoc.
  intros (dv & Hsub & (d & -> & Hk)%py_getitem_ok)%result_bind_ok. eauto.
Qed.

Lemma strict_prefix_app a q :
  strict_prefix a q = true → ∃ j q', q = (a ++ j :: q')%list.
Proof.
  revert q. induction a as [|k a IH]; intros [|k' q] H; simpl in *; try done.
  - eauto.
  - destruct (decide (k = k')) as [<-|]; [|done].
    destruct (IH _ H) as (j & q' & ->). eauto.
Qed.

(** Default-filling the entry [k] of [inputs[p]] keeps what is at [q], as
    soon as [q] parts from [p ++ [k]] or lies strictly below it. *)
Lemma init_missing_keeps {p k s s' u} q :
  init_missing p k s = (s', Ok u) →
  diverge (p ++ [k]) q || strict_prefix (p ++ [k]) q = true →
  lookup_path q (inputs s') = lookup_path q (inputs s).
Proof.
  intros H [Hd|Hb]%orb_true_iff.
  - by eapply init_missing_frame.
  - apply strict_prefix_app in Hb as (j & q' & ->).
    rewrite <- !app_assoc. simpl. by eapply init_missing_below.
Qed.

Lemma update_keeps {p o s s' u} q :
  update p o s = (s', Ok u) →
  diverge p q = true →
  lookup_path q (inputs s') = lookup_path q (inputs s).
Proof. intros [_ H]%mutate_ok Hd. by eapply at_path_frame_lookup. Qed.

(** After a mutation below [c], there is a mapping at [c]. *)
Lemma at_path_prefix_dict c k p f v v' :
  at_path (c ++ k :: p) f v = Ok v' → ∃ d, sub c v' = Ok (VDict d).
Proof.
  revert v v'. induction c as [|k0 c IH]; intros v v' H.
  - apply at_path_cons_dict in H as (d & x & x' & _ & _ & _ & ->). simpl. eauto.
  - apply at_path_cons_dict in H as (d & x & x' & _ & _ & H & ->).
    simpl. rewrite lookup_insert_eq. simpl. eauto.
Qed.

Lemma update_prefix {p o s s' u} c k p' :
  update p o s = (s', Ok u) → p = (c ++ k :: p')%list → dict_at c s'.
Proof. intros [_ H]%mutate_ok ->. by eapply at_path_prefix_dict. Qed.

Lemma at_path_run p f v x y :
  sub p v = Ok x → f x = Ok y → ∃ v', at_path p f v = Ok v'.
Proof.
  revert v. induction p as [|k p IH]; intros v Hsub Hf; simpl in *.
  - injection Hsub as ->. eauto.
  - apply result_bind_ok in Hsub as (x0 & Hget & Hsub).
    destruct (IH _ Hsub Hf) as [x' Hx'].
    destruct (py_getitem_ok _ _ _ Hget) as (d & -> & Hk).
    simpl. rewrite Hk. simpl. rewrite Hx'. simpl. eauto.
Qed.

Lemma has_key_run p k s d :
  sub p (inputs s) = Ok (VDict d) →
  has_key p k s = (s, Ok (match d !! k with Some _ => true | None => false end)).
Proof. intros H. unfold has_key, expr. by rewrite H. Qed.

Lemma get_default_run p k dflt s d :
  sub p (inputs s) = Ok (VDict d) →
  get_default p k dflt s = (s, Ok (default dflt (d !! k))).
Proof. intros H. unfold get_default, expr. by rewrite H. Qed.

Lemma get_item_run p k s d x :
  sub p (inputs s) = Ok (VDict d) → d !! k = Some x →
  get_item p k s = (s, Ok x).
Proof. intros H Hk. unfold get_item, expr. rewrite H. simpl. by rewrite Hk. Qed.

Lemma init_missing_run p k s :
  dict_at p s → ∃ s', init_missing p k s = (s', Ok tt).
Proof.
  intros [d Hd]. unfold init_missing.
  rewrite (bind_run _ _ _ _ _ (has_key_run _ k _ _ Hd)).
  destruct (d !! k); simpl; [eauto|].
  unfold set_item, mutate.
  destruct (at_path_run p (py_setitem k (VDict ∅)) _ _ _ Hd eq_refl) as [v' ->].
  eauto.
Qed.

Lemma update_run p d' s :
  dict_at p s → ∃ s', update p (VDict d') s = (s', Ok tt).
Proof.
  intros [d Hd]. unfold update, mutate.
  destruct (at_path_run p (py_update (VDict d')) _ _ _ Hd eq_refl) as [v' ->].
  eauto.
Qed.

(** After default-filling, an entry that was absent or a mapping is a mapping. *)
Lemma init_missing_entry {p k s s' u} :
  init_missing p k s = (s', Ok u) →
  opt_dict (lookup_path (p ++ [k]) (inputs s)) = true →
  dict_at (p ++ [k]) s'.
Proof.
  intros (_ & d & Hsub & H)%init_missing_ok Hopt.
  rewrite (lookup_path_snoc _ _ _ _ Hsub) in Hopt.
  unfold dict_at. rewrite sub_snoc.
  destruct (d !! k) as [x|] eqn:Hk.
  - subst. rewrite Hsub. simpl. rewrite Hk. destruct x; try done. eauto.
  - apply at_path_sub in H as (x & y & Hx & Hy & ->).
    rewrite Hsub in Hx. injection Hx as <-. simpl in Hy. injection Hy as <-.
    simpl. rewrite lookup_insert_eq. eauto.
Qed.

Lemma init_missing_parent {p k s s' u} :
  init_missing p k s = (s', Ok u) → dict_at p s'.
Proof. intros (d & x & H & _)%init_missing_present. by exists d. Qed.

Lemma dict_at_keeps q s s' :
  lookup_path q (inputs s') = lookup_path q (inputs s) →
  dict_at q s → dict_at q s'.
Proof. rewrite !dict_at_lookup. by intros ->. Qed.

Lemma opt_dict_default o :
  opt_dict o = true → ∃ d, default (VDict ∅) o = VDict d.
Proof. destruct o as [[]|]; simpl; try done; eauto. Qed.
(** Bring a lookup in a later state back to the state the phase started in. *)
Ltac keep :=
  repeat match goal with
    | H : init_missing _ _ ?s = (?s', Ok _)
      |- context [lookup_path ?q (inputs ?s')] =>
        rewrite (init_missing_keeps q H eq_refl)
    | H : update _ _ ?s = (?s', Ok _)
      |- context [lookup_path ?q (inputs ?s')] =>
        rewrite (update_keeps q H eq_refl)
    end.

Ltac step E := rewrite (bind_run _ _ _ _ _ E).

Lemma lift_run {A} (r : result A) a s : r = Ok a → lift r s = (s, Ok a).
Proof. by intros ->. Qed.

Lemma py_update_default_run (o : option value) (dflt : value) :
  opt_dict o = true → is_dict dflt = true →
  ∃ d, py_update (default (VDict ∅) o) (deepcopy dflt) = Ok (VDict d).
Proof.
  intros [d ->]%opt_dict_default Hd. destruct dflt; try done. simpl. eauto.
Qed.

(** The scf block runs through on a well-typed tree. *)
Lemma scf_setup_run s :
  dict_at [] s →
  opt_dict (lookup_path ["scf"] (inputs s)) = true →
  opt_dict (lookup_path ["scf"; "parameters"] (inputs s)) = true →
  opt_dict (lookup_path ["scf"; "parameters"; "CONTROL"] (inputs s)) = true →
  opt_dict (lookup_path ["scf"; "parameters"; "SYSTEM"] (inputs s)) = true →
  opt_dict (lookup_path ["scf"; "metadata"] (inputs s)) = true →
  opt_number (lookup_path ecutwfc_path (inputs s)) = true →
  ∃ s' md, scf_setup s = (s', Ok md)
    ∧ dict_at [] s'
    ∧ dict_at ["scf"; "parameters"] s'
    ∧ dict_at ["scf"; "parameters"; "SYSTEM"] s'
    ∧ lookup_path ["scf"; "kpoints"] (inputs s')
      = lookup_path ["scf"; "kpoints"] (inputs s).
Proof.
  intros H0 Hscf Hpar Hctl Hsys Hmd Hnum. unfold scf_setup, ecutwfc_path in *.
  assert (default_inputs s = (s, Ok tt)) as E0.
  { destruct H0 as [d Hd]. simpl in Hd. injection Hd as Hd.
    unfold default_inputs. by rewrite Hd. }
  step E0.
  destruct (init_missing_run [] "scf" s H0) as [s1 E1]. step E1.
  pose proof (init_missing_entry E1 Hscf) as D1. simpl in D1.
  destruct (init_missing_run ["scf"] "parameters" s1 D1) as [s2 E2]. step E2.
  assert (dict_at ["scf"; "parameters"] s2) as D2.
  { apply (init_missing_entry E2). simpl. by keep. }
  destruct (init_missing_run ["scf"; "parameters"] "CONTROL" s2 D2) as [s3 E3].
  step E3.
  assert (dict_at ["scf"; "parameters"; "CONTROL"] s3) as D3.
  { apply (init_missing_entry E3). simpl. by keep. }
  destruct (init_missing_run ["scf"; "parameters"] "SYSTEM" s3
              (init_missing_parent E3)) as [s4 E4].
  step E4.
  assert (dict_at ["scf"; "parameters"; "SYSTEM"] s4) as D4.
  { apply (init_missing_entry E4). simpl. by keep. }
  destruct D4 as [sys Hsys4].
  step (get_default_run _ "ecutwfc" (VFloat 30) _ _ Hsys4).
  step (get_default_run _ "ecutwfc" (VFloat 30) _ _ Hsys4).
  assert (∃ rho, py_mul_float (default (VFloat 30) (sys !! "ecutwfc")) 8 = Ok rho)
    as [rho Hrho].
  { rewrite <- (lookup_path_snoc ["scf"; "parameters"; "SYSTEM"] "ecutwfc" _ _ Hsys4).
    simpl. keep.
    destruct (lookup_path ["scf"; "parameters"; "SYSTEM"; "ecutwfc"] (inputs s))
      as [[]|]; simpl in *; try done; eauto. }
  assert (lift (py_mul_float (default (VFloat 30) (sys !! "ecutwfc")) 8) s4
          = (s4, Ok rho)) as Erho.
  { unfold lift. by rewrite Hrho. }
  step Erho.
  assert (dict_at ["scf"; "parameters"; "CONTROL"] s4) as D4c.
  { apply (dict_at_keeps _ s3); [by keep | done]. }
  destruct (update_run _ {[ "calculation" := VStr "scf" ]} _ D4c) as [s5 E5].
  step E5.
  assert (dict_at ["scf"; "parameters"; "SYSTEM"] s5) as D5.
  { apply (dict_at_keeps _ s4); [by keep | by exists sys]. }
  destruct (update_run _ (<["ecutwfc" := default (VFloat 30) (sys !! "ecutwfc")]>
                          {[ "ecutrho" := rho ]}) _ D5) as [s6 E6].
  step E6.
  destruct (update_prefix ["scf"] "parameters" ["SYSTEM"] E6 eq_refl) as [scf6 Hscf6].
  step (get_default_run _ "metadata" (VDict ∅) _ _ Hscf6).
  destruct (py_update_default_run (scf6 !! "metadata") metadata_default_mpi)
    as [md Emd]; [|done|].
  { rewrite <- (lookup_path_snoc ["scf"] "metadata" _ _ Hscf6). simpl. by keep. }
  unfold lift. rewrite Emd. eexists _, _. split; [done|].
  split; [apply (update_prefix [] "scf" ["parameters"; "SYSTEM"] E6 eq_refl)|].
  split; [apply (update_prefix ["scf"; "parameters"] "SYSTEM" [] E6 eq_refl)|].
  split.
  - destruct (update_ok _ _ _ _ _ E6) as (d & d' & _ & _ & Hd' & _). by eexists.
  - by keep.
Qed.

Lemma dict_at_entry p k s d :
  sub p (inputs s) = Ok (VDict d) → dict_at (p ++ [k]) s →
  ∃ x, d !! k = Some (VDict x).
Proof.
  intros Hp [x Hx]. rewrite sub_snoc, Hp in Hx. simpl in Hx.
  destruct (d !! k); simplify_eq. eauto.
Qed.

Lemma opt_dict_entry p k s d :
  sub p (inputs s) = Ok (VDict d) →
  opt_dict (lookup_path (p ++ [k]) (inputs s)) = true →
  ∃ x, default (VDict ∅) (d !! k) = VDict x.
Proof.
  intros Hp Ho. rewrite (lookup_path_snoc _ _ _ _ Hp) in Ho.
  by apply opt_dict_default.
Qed.

(** The nscf block runs through on a well-typed tree, once the scf block has
    left a SYSTEM namelist. *)
Lemma nscf_setup_run s :
  dict_at ["nscf"] s →
  opt_dict (lookup_path ["nscf"; "parameters"] (inputs s)) = true →
  opt_dict (lookup_path ["nscf"; "parameters"; "CONTROL"] (inputs s)) = true →
  opt_dict (lookup_path ["nscf"; "metadata"] (inputs s)) = true →
  dict_at ["scf"; "parameters"] s →
  dict_at ["scf"; "parameters"; "SYSTEM"] s →
  ∃ s' md, nscf_setup s = (s', Ok md)
    ∧ dict_at [] s'
    ∧ dict_at ["nscf"; "parameters"] s'
    ∧ lookup_path ["nscf"; "kpoints"] (inputs s')
      = lookup_path ["nscf"; "kpoints"] (inputs s).
Proof.
  intros Hn Hpar Hctl Hmd Hsp Hsys. unfold nscf_setup.
  destruct (init_missing_run ["nscf"] "parameters" s Hn) as [s1 E1]. step E1.
  pose proof (init_missing_entry E1 Hpar) as D1. simpl in D1.
  destruct (init_missing_run ["nscf"; "parameters"] "CONTROL" s1 D1) as [s2 E2].
  step E2.
  assert (dict_at ["nscf"; "parameters"; "CONTROL"] s2) as D2.
  { apply (init_missing_entry E2). simpl. by keep. }
  assert (dict_at ["scf"; "parameters"] s2) as [sp Hsp2].
  { apply (dict_at_keeps _ s); [by keep | done]. }
  assert (dict_at (["scf"; "parameters"] ++ ["SYSTEM"]) s2) as Hsys2.
  { apply (dict_at_keeps _ s); [simpl; by keep | done]. }
  destruct (dict_at_entry _ _ _ _ Hsp2 Hsys2) as [sys Hsys'].
  pose proof (has_key_run _ "SYSTEM" _ _ Hsp2) as Eb. rewrite Hsys' in Eb.
  step Eb. unfold unless at 1. unfold mret at 1, M_ret at 1.
  unfold mbind at 1, M_bind at 1.
  destruct (update_run _ {[ "calculation" := VStr "nscf" ]} _ D2) as [s3 E3].
  step E3.
  destruct (update_prefix ["nscf"] "parameters" ["CONTROL"] E3 eq_refl)
    as [n3 Hn3].
  step (get_default_run _ "metadata" (VDict ∅) _ _ Hn3).
  destruct (py_update_default_run (n3 !! "metadata") metadata_default_mpi)
    as [md Emd]; [|done|].
  { rewrite <- (lookup_path_snoc ["nscf"] "metadata" _ _ Hn3). simpl. by keep. }
  unfold lift. rewrite Emd. eexists _, _. split; [done|].
  split; [apply (update_prefix [] "nscf" ["parameters"; "CONTROL"] E3 eq_refl)|].
  split; [apply (update_prefix ["nscf"; "parameters"] "CONTROL" [] E3 eq_refl)|].
  by keep.
Qed.

(** Lines 142-145 run through when the settings are absent or a mapping. *)
Lemma pw2wannier_settings_run s :
  dict_at ["pw2wannier90"] s →
  opt_dict (lookup_path ["pw2wannier90"; "settings"] (inputs s)) = true →
  ∃ s' d, pw2wannier_settings s = (s', Ok (VDict d))
    ∧ dict_at ["pw2wannier90"] s'
    ∧ (dict_at [] s → dict_at [] s')
    ∧ ∀ q, diverge ["pw2wannier90"; "settings"] q = true →
           lookup_path q (inputs s') = lookup_path q (inputs s).
Proof.
  intros [pw Hpw] Hset. unfold pw2wannier_settings.
  step (get_default_run _ "settings" (VDict ∅) _ _ Hpw).
  step (has_key_run _ "settings" _ _ Hpw).
  pose proof (lookup_path_snoc ["pw2wannier90"] "settings" _ _ Hpw) as Hs.
  cbn [app] in Hs. rewrite Hs in Hset. clear Hs.
  destruct (pw !! "settings") as [x|] eqn:Hx; simpl.
  - destruct x as [| | | | | |xd| | |]; try done.
    assert (dict_at ["pw2wannier90"; "settings"] s) as Dx.
    { exists xd. rewrite (sub_snoc ["pw2wannier90"] "settings"), Hpw. simpl.
      by rewrite Hx. }
    destruct (update_run _ {[ "ADDITIONAL_RETRIEVE_LIST" := retrieve_patterns ]}
                _ Dx) as [s1 E1].
    step E1.
    destruct (update_ok _ _ _ _ _ E1) as (d & d' & _ & _ & Hd' & _).
    apply lookup_path_sub in Hd'.
    apply (lookup_path_snoc_inv ["pw2wannier90"] "settings") in Hd'
      as (pw1 & Hpw1 & Hs1).
    rewrite (get_item_run _ _ _ _ _ Hpw1 Hs1).
    eexists _, _. split; [done|]. split; [by exists pw1|]. split.
    + intros _. apply (update_prefix [] "pw2wannier90" ["settings"] E1 eq_refl).
    + intros q Hq. by rewrite (update_keeps q E1 Hq).
  - unfold lift. simpl. eexists _, _. split; [done|]. split; [by exists pw|done].
Qed.

(** The pw2wannier90 block runs through on a well-typed tree. *)
Lemma pw2wan_setup_run s :
  dict_at [] s →
  opt_dict (lookup_path ["pw2wannier90"] (inputs s)) = true →
  opt_dict (lookup_path ["pw2wannier90"; "settings"] (inputs s)) = true →
  opt_dict (lookup_path ["pw2wannier90"; "parameters"] (inputs s)) = true →
  opt_dict (lookup_path ["pw2wannier90"; "parameters"; "inputpp"] (inputs s)) = true →
  opt_dict (lookup_path ["pw2wannier90"; "metadata"] (inputs s)) = true →
  ∃ s' r, pw2wan_setup s = (s', Ok r)
    ∧ is_dict r.1.1 = true ∧ is_dict r.1.2 = true ∧ dict_at [] s'.
Proof.
  intros H0 Hpw Hset Hpar Hipp Hmd. unfold pw2wan_setup.
  destruct (init_missing_run [] "pw2wannier90" s H0) as [s1 E1]. step E1.
  pose proof (init_missing_entry E1 Hpw) as D1. simpl in D1.
  destruct (pw2wannier_settings_run s1 D1)
    as (s2 & sd & E2 & [pw Hpw2] & H02 & Hkeep).
  { by keep. }
  step E2.
  step (get_default_run _ "parameters" (VDict ∅) _ _ Hpw2).
  assert (∀ k, diverge ["pw2wannier90"; "settings"] ["pw2wannier90"; k] = true →
            pw !! k = lookup_path ["pw2wannier90"; k] (inputs s)) as Hk.
  { intros k Hd.
    rewrite <- (lookup_path_snoc ["pw2wannier90"] k _ _ Hpw2). simpl.
    rewrite (Hkeep _ Hd). apply (init_missing_keeps ["pw2wannier90"; k] E1 eq_refl). }
  unfold deepcopy.
  assert (∃ pd, default (VDict ∅) (pw !! "parameters") = VDict pd
                ∧ opt_dict (pd !! "inputpp") = true) as (pd & -> & Hpd).
  { rewrite (Hk "parameters" eq_refl).
    destruct (lookup_path ["pw2wannier90"; "parameters"] (inputs s))
      as [x|] eqn:Ex; simpl.
    - destruct x as [| | | | | |pd| | |]; try done. exists pd. split; [done|].
      apply lookup_path_sub in Ex.
      pose proof (lookup_path_snoc ["pw2wannier90"; "parameters"] "inputpp"
                    _ _ Ex) as Hs.
      cbn [app] in Hs. by rewrite Hs in Hipp.
    - exists ∅. by rewrite lookup_empty. }
  destruct (opt_dict_default _ Hpd) as [ipp Hipp'].
  assert (py_getitem pw2wannier_parameters_default "inputpp"
          = Ok (VDict inputpp_default)) as Edflt by (vm_compute; reflexivity).
  step (lift_run _ _ s2 Edflt).
  step (lift_run (py_get (VDict pd) "inputpp" (VDict ∅)) _ s2 eq_refl).
  rewrite Hipp'.
  step (lift_run (py_update (VDict ipp) (VDict inputpp_default)) _ s2 eq_refl).
  step (lift_run (py_setitem "inputpp" (VDict (ipp ∪ inputpp_default)) (VDict pd))
          _ s2 eq_refl).
  step (get_default_run _ "metadata" (VDict ∅) _ _ Hpw2).
  destruct (py_update_default_run (pw !! "metadata") metadata_default_mpi)
    as [md Emd]; [|done|].
  { by rewrite (Hk "metadata" eq_refl). }
  step (lift_run _ _ s2 Emd).
  eexists _, _. split; [done|]. split; [done|]. split; [done|].
  apply H02, (init_missing_parent E1).
Qed.

(** The wannier90 block runs through on a well-typed tree with an nscf mesh. *)
Lemma w90_setup_run s mesh offset :
  dict_at [] s →
  opt_dict (lookup_path ["wannier90"] (inputs s)) = true →
  opt_dict (lookup_path ["wannier90"; "parameters"] (inputs s)) = true →
  opt_dict (lookup_path ["wannier90"; "metadata"] (inputs s)) = true →
  lookup_path ["nscf"; "kpoints"] (inputs s) = Some (VKpoints (KMesh mesh offset)) →
  ∃ s' r, w90_setup s = (s', Ok r)
    ∧ is_dict r.1 = true
    ∧ ∀ q, diverge ["wannier90"] q || strict_prefix ["wannier90"] q = true →
           lookup_path q (inputs s') = lookup_path q (inputs s).
Proof.
  intros H0 Hw Hpar Hmd Hkp. unfold w90_setup.
  destruct (init_missing_run [] "wannier90" s H0) as [s1 E1]. step E1.
  destruct (init_missing_entry E1 Hw) as [w Hw1]. cbn [app] in Hw1.
  assert (lookup_path (["nscf"] ++ ["kpoints"]) (inputs s1)
          = Some (VKpoints (KMesh mesh offset))) as Hkp1.
  { simpl. by keep. }
  apply lookup_path_snoc_inv in Hkp1 as (n & Hn & Hk).
  step (get_item_run _ _ _ _ _ Hn Hk).
  step (lift_run (get_kpoints_mesh (VKpoints (KMesh mesh offset))) _ s1 eq_refl).
  step (get_default_run _ "parameters" (VDict ∅) _ _ Hw1).
  destruct (py_update_default_run (w !! "parameters") (w90_params_default mesh))
    as [wp Ewp].
  { rewrite <- (lookup_path_snoc ["wannier90"] "parameters" _ _ Hw1). simpl.
    by keep. }
  { by destruct mesh as [[n1 n2] n3]. }
  step (lift_run _ _ s1 Ewp).
  step (get_default_run _ "metadata" (VDict ∅) _ _ Hw1).
  destruct (py_update_default_run (w !! "metadata") metadata_default_no_mpi)
    as [md Emd]; [|done|].
  { rewrite <- (lookup_path_snoc ["wannier90"] "metadata" _ _ Hw1). simpl.
    by keep. }
  step (lift_run _ _ s1 Emd).
  eexists _, _. split; [done|]. split; [done|].
  intros q Hq. apply (init_missing_keeps q E1 Hq).
Qed.

(** The five tasks are created and bound as soon as every entry read at
    lines 175-238 is there. *)
Lemma build_graph_run codes structure pseudos scf_md kp nscf_md pp settings
    pw_md wp w_md s :
  is_Some (codes !! "pw") →
  is_Some (codes !! "pw2wannier90") →
  is_Some (codes !! "wannier90") →
  dict_at ["scf"; "parameters"] s →
  is_Some (lookup_path ["scf"; "kpoints"] (inputs s)) →
  dict_at ["nscf"; "parameters"] s →
  is_Some (lookup_path ["wannier90"; "kpoint_path"] (inputs s)) →
  is_Some (lookup_path ["wannier90"; "projections"] (inputs s)) →
  is_dict pp = true → is_dict settings = true → is_dict wp = true →
  ∃ s' g, build_graph codes structure pseudos scf_md kp nscf_md pp settings
            pw_md wp w_md s = (s', Ok g).
Proof.
  intros [c1 Hc1] [c2 Hc2] [c3 Hc3] [sp Hsp] [k Hk] [np Hnp] [kpath Hkpath]
    [proj Hproj] Hpp Hset Hwp.
  apply (lookup_path_snoc_inv ["scf"] "kpoints") in Hk as (scf & Hscf & Hk).
  apply (lookup_path_snoc_inv ["wannier90"] "kpoint_path") in Hkpath
    as (w & Hw & Hkpath).
  apply (lookup_path_snoc_inv ["wannier90"] "projections") in Hproj
    as (w' & Hw' & Hproj).
  rewrite Hw in Hw'. injection Hw' as <-.
  destruct pp as [| | | | | |ppd| | |]; try done.
  destruct settings as [| | | | | |sd| | |]; try done.
  destruct wp as [| | | | | |wpd| | |]; try done.
  destruct s as [i g0]. cbn [inputs] in *.
  unfold build_graph, new_workgraph, add_task, task_set, return_wg, get_item,
    expr, lift, code_of, mbind, M_bind.
  repeat (cbn [result_bind inputs wg py_getitem orm_Dict fst snd];
          rewrite ?Hc1, ?Hc2, ?Hc3, ?Hsp, ?Hscf, ?Hk, ?Hnp, ?Hw, ?Hkpath, ?Hproj).
  eauto.
Qed.

(** Lines 37-39 go through when every label resolves, and keep every key. *)
Lemma resolve_codes_fold reg c0 (m : gmap string value) :
  (∀ k label, m !! k = Some (VStr label) → is_Some (find_code reg label)) →
  ∃ c, map_fold (λ k v (acc : result (gmap string value)),
           c ← acc;
           match v with
           | VStr label => code ← load_code reg label; Ok (<[k:=code]> c)
           | _ => Ok c
           end) (Ok c0) m = Ok c
       ∧ ∀ k, is_Some (c0 !! k) → is_Some (c !! k).
Proof.
  revert m.
  apply (map_fold_weak_ind
    (λ r (m : gmap string value),
       (∀ k label, m !! k = Some (VStr label) → is_Some (find_code reg label)) →
       ∃ c, r = Ok c ∧ ∀ k, is_Some (c0 !! k) → is_Some (c !! k))).
  - intros _. eauto.
  - intros k v m r Hk IH Hres.
    destruct IH as (c & -> & Hc).
    { intros k' label Hk'. apply (Hres k').
      rewrite lookup_insert_ne; [done|]. intros <-. congruence. }
    simpl. destruct v; try by eauto.
    destruct (Hres k s) as [code Hcode]; [by rewrite lookup_insert_eq|].
    unfold load_code. rewrite Hcode. simpl. eexists. split; [done|].
    intros k' Hk'. rewrite lookup_insert_is_Some'. eauto.
Qed.

Lemma resolve_codes_run reg codes :
  (∀ k label, codes !! k = Some (VStr label) → is_Some (find_code reg label)) →
  ∃ c, resolve_codes reg codes = Ok c
       ∧ ∀ k, is_Some (codes !! k) → is_Some (c !! k).
Proof. apply resolve_codes_fold. Qed.

(** The whole call runs through on a well-typed tree that supplies what the
    builder indexes directly. *)
Lemma minimal_w90_workgraph_run reg codes structure family inputs0 :
  codes_resolve reg codes →
  is_Some (find_pseudos reg family structure) →
  well_typed inputs0 = true →
  passes_nscf_checks inputs0 = true →
  positive_nscf_mesh inputs0 = true →
  supplies inputs0 ["scf"; "kpoints"] = true →
  supplies inputs0 ["wannier90"; "kpoint_path"] = true →
  supplies inputs0 ["wannier90"; "projections"] = true →
  ∃ st g,
    minimal_w90_workgraph reg codes structure family inputs0 = (st, Ok g)
    ∧ task_name <$> wg_tasks g = ["scf"; "nscf"; "w90_pp"; "pw2wan"; "w90"]
    ∧ wg_links g = [("scf", "remote_folder", "nscf", "parent_folder");
                    ("nscf", "remote_folder", "pw2wan", "parent_folder");
                    ("w90_pp", "nnkp_file", "pw2wan", "nnkp_file");
                    ("pw2wan", "remote_folder", "w90", "remote_input_folder")].
Proof.
  intros (Hres & Hpw & Hpw2 & Hw90) [p Hp] Hwt Hchk Hpos Hkp Hkpath Hproj.
  unfold well_typed in Hwt. rewrite !andb_true_iff in Hwt. destruct_and!.
  unfold supplies in *.
  destruct (lookup_path ["scf"; "kpoints"] inputs0) as [kp0|] eqn:Ekp; [|done].
  destruct (lookup_path ["wannier90"; "kpoint_path"] inputs0) as [kpath|] eqn:Ekpath;
    [|done].
  destruct (lookup_path ["wannier90"; "projections"] inputs0) as [proj|] eqn:Eproj;
    [|done].
  unfold passes_nscf_checks, positive_nscf_mesh in *.
  destruct (lookup_path ["nscf"; "kpoints"] inputs0) as [kv|] eqn:Ekv; [|done].
  destruct kv as [| | | | | | |[mesh offset| |]| |]; try done. simpl in Hchk.
  destruct (get_explicit_kpoints_positive mesh offset Hpos) as [Hconv _].
  set (s0 := MkState inputs0 None).
  assert (dict_at [] s0) as D0.
  { rewrite lookup_path_cons in Ekp. destruct inputs0; try done. by eexists. }
  unfold minimal_w90_workgraph. fold s0.
  destruct (resolve_codes_run reg codes Hres) as (c & Ec & Hc).
  step (lift_run _ _ s0 Ec).
  assert (load_pseudos reg family structure = Ok p) as Ep.
  { unfold load_pseudos. by rewrite Hp. }
  step (lift_run _ _ s0 Ep). unfold workgraph_body.
  (* the scf block *)
  destruct (scf_setup_run s0) as (s1 & scf_md & E1 & D1 & Dsp1 & Dsys1 & Hk1);
    try done.
  destruct (scf_setup_frame _ _ _ E1) as [[_ F1] _]. step E1.
  (* the validations *)
  assert (lookup_path ["nscf"; "kpoints"] (inputs s1)
          = Some (VKpoints (KMesh mesh offset))) as Ekv1.
  { by rewrite F1. }
  pose proof (nscf_kpoints_check_present _ _ Ekv1) as E2.
  unfold check_outcome in E2. rewrite Hchk, Hconv in E2. step E2.
  (* the nscf block *)
  destruct (nscf_setup_run s1) as (s2 & nscf_md & E3 & D2 & Dnp2 & Ekv2);
    try (rewrite F1 by done; done); try done.
  { apply (lookup_path_snoc_inv ["nscf"] "kpoints") in Ekv1 as (n & Hn & _).
    by exists n. }
  destruct (nscf_setup_frame _ _ _ E3) as [[_ F2] _]. step E3.
  (* the pw2wannier90 block *)
  destruct (pw2wan_setup_run s2) as (s3 & pw2wan & E4 & Hpp & Hset & D3);
    try (rewrite F2, F1 by done; done); try done.
  destruct (pw2wan_setup_frame _ _ _ E4) as [[_ F3] _]. step E4.
  (* the wannier90 block *)
  destruct (w90_setup_run s3 mesh offset) as (s4 & w90 & E5 & Hwp & K5);
    try (rewrite F3, F2, F1 by done; done); try done.
  { by rewrite F3, Ekv2 by done. }
  step E5.
  (* the graph *)
  destruct (build_graph_run c structure p scf_md
              (VKpoints (KList (mgrid_points mesh offset))) nscf_md
              pw2wan.1.1 pw2wan.1.2 pw2wan.2 w90.1 w90.2 s4)
    as (s5 & g & E6); try done; try (by apply Hc).
  - apply (dict_at_keeps _ s1); [|done].
    by rewrite (K5 ["scf"; "parameters"] eq_refl), F3, F2.
  - rewrite (K5 ["scf"; "kpoints"] eq_refl), F3, F2, Hk1 by done.
    unfold s0. simpl. by rewrite Ekp.
  - apply (dict_at_keeps _ s2); [|done].
    by rewrite (K5 ["nscf"; "parameters"] eq_refl), F3.
  - rewrite (K5 ["wannier90"; "kpoint_path"] eq_refl), F3, F2, F1 by done.
    unfold s0. simpl. by rewrite Ekpath.
  - rewrite (K5 ["wannier90"; "projections"] eq_refl), F3, F2, F1 by done.
    unfold s0. simpl. by rewrite Eproj.
  - exists s5, g. split; [done|].
    by apply build_graph_ok in E6 as (Hn & Hl & _).
Qed.

(** * Further properties of the builder *)

Lemma orm_Dict_ok v x : orm_Dict v = Ok x → ∃ d, v = VDict d ∧ x = VDictNode d.
Proof. destruct v; simpl; try done. intros [= <-]. eauto. Qed.

(** Lines 175-238: the parameters and the metadata the [set] calls bind. *)
Lemma build_graph_bound codes structure pseudos scf_md kp nscf_md pp settings
    pw_md wp w_md s s' g :
  build_graph codes structure pseudos scf_md kp nscf_md pp settings pw_md
    wp w_md s = (s', Ok g) →
  inputs s' = inputs s ∧
  (∃ d, sub ["scf"; "parameters"] (inputs s) = Ok (VDict d)
        ∧ task_input "scf" "parameters" g = Some (Data (VDictNode d))) ∧
  (∃ d, sub ["nscf"; "parameters"] (inputs s) = Ok (VDict d)
        ∧ task_input "nscf" "parameters" g = Some (Data (VDictNode d))) ∧
  (∃ d, wp = VDict d
        ∧ task_input "w90_pp" "parameters" g = Some (Data (VDictNode d))
        ∧ task_input "w90" "parameters" g = Some (Data (VDictNode d))) ∧
  (∃ d, pp = VDict d
        ∧ task_input "pw2wan" "parameters" g = Some (Data (VDictNode d))) ∧
  task_input "scf" "metadata" g = Some (Data scf_md) ∧
  task_input "nscf" "metadata" g = Some (Data nscf_md) ∧
  task_input "pw2wan" "metadata" g = Some (Data pw_md) ∧
  task_input "w90" "metadata" g = Some (Data w_md) ∧
  task_input "w90_pp" "metadata" g = Some (Data metadata_default_no_mpi).
Proof.
  unfold build_graph. intros H.
  repeat
    (let Hs := fresh "Hstep" in
     apply bind_ok in H as (? & ? & Hs & H);
     first
       [ apply lift_inv in Hs as [-> Hs]; symmetry in Hs
       | apply expr_inv in Hs as [-> Hs]; symmetry in Hs
       | unfold new_workgraph, add_task, task_set in Hs; simpl in Hs;
         injection Hs as <- ]).
  unfold return_wg in H. cbn [wg inputs] in H. injection H as <- <-.
  cbn [inputs] in *.
  repeat match goal with
    | H : _ ≫= _ = Ok _ |- _ =>
        apply result_bind_ok in H as (? & ? & ?%orm_Dict_ok)
    | H : orm_Dict _ = Ok _ |- _ => apply orm_Dict_ok in H
    end.
  destruct_and?. repeat match goal with H : ∃ _, _ |- _ => destruct H as (? & ? & ?) end.
  simplify_eq.
  repeat split; try done;
    eexists; repeat split; first [eassumption | reflexivity].
Qed.

(** * The claims *)

(** C4.  An inputs tree that has no nscf section, or whose nscf section has
    no kpoints entry, makes the call raise, and the WorkGraph has not been
    instantiated when it does: no task was created, no graph is returned. *)
Theorem C4_missing_nscf_kpoints reg codes structure family inputs0 :
  lookup_path ["nscf"; "kpoints"] inputs0 = None →
  ∃ st e, minimal_w90_workgraph reg codes structure family inputs0 = (st, Raise e)
          ∧ wg st = None.
Proof.
  intros Hmiss.
  destruct (minimal_w90_workgraph reg codes structure family inputs0)
    as [st r] eqn:E.
  apply minimal_w90_workgraph_inv in E as [(e & -> & -> & _)|(c & p & _ & _ & E)];
    [eauto|].
  apply workgraph_body_inv in E as (s1 & r1 & E1 & [Hwg Hframe] & E).
  assert (lookup_path ["nscf"; "kpoints"] (inputs s1) = None) as Hmiss1.
  { by rewrite Hframe. }
  destruct r1 as [scf_md|e1].
  - destruct E as (r2 & E2 & E).
    destruct (nscf_kpoints_check_missing _ Hmiss1) as [e He].
    rewrite He in E2. injection E2 as <-. destruct E as [-> ->]. eauto.
  - destruct E as (-> & -> & _). eauto.
Qed.

Lemma C4_missing_nscf_kpoints_witness :
  ∃ st e, Launch.run (VDict ∅) = (st, Raise e) ∧ wg st = None.
Proof.
  apply (C4_missing_nscf_kpoints Launch.registry Launch.codes Launch.structure
           Launch.pseudo_family (VDict ∅)).
  reflexivity.
Defined.

(** C5.  The nscf k-point specification is rejected exactly when it is not an
    unshifted mesh.  The call raises whenever it is not one; when it is one,
    the call raises none of the validation errors.  At the validation block:
    an explicit list raises ValueError, a mesh with a shift raises
    AssertionError, anything that is no unshifted mesh makes the block raise,
    and an unshifted mesh gets through both checks, the block ending as the
    conversion of line 109 does. *)
Theorem C5_nscf_kpoints_validation reg codes structure family inputs0 kv :
  lookup_path ["nscf"; "kpoints"] inputs0 = Some kv →
  let call := minimal_w90_workgraph reg codes structure family inputs0 in
  (zero_shift_mesh kv = false → ∃ e, call.2 = Raise e ∧ wg call.1 = None) ∧
  (zero_shift_mesh kv = true →
     ∀ e, call.2 = Raise e → nscf_validation_error e = false) ∧
  (∀ s, lookup_path ["nscf"; "kpoints"] (inputs s) = Some kv →
     is_ok (nscf_kpoints_check s).2
       = zero_shift_mesh kv && is_ok (get_explicit_kpoints kv) ∧
     (zero_shift_mesh kv = true →
        nscf_kpoints_check s = (s, get_explicit_kpoints kv)) ∧
     (∀ pts, kv = VKpoints (KList pts) →
        nscf_kpoints_check s = (s, Raise (ValueError msg_explicit))) ∧
     (∀ mesh offset, kv = VKpoints (KMesh mesh offset) →
        offset_is_zero offset = false →
        nscf_kpoints_check s = (s, Raise (AssertionError msg_shift)))).
Proof.
  intros Hkv call.
  assert (∀ s, lookup_path ["nscf"; "kpoints"] (inputs s) = Some kv →
            zero_shift_mesh kv = true →
            nscf_kpoints_check s = (s, get_explicit_kpoints kv)) as Hpass.
  { intros s Hs Hz. rewrite (nscf_kpoints_check_present _ _ Hs).
    destruct kv as [| | | | | | |[m o|pts|]| |]; simpl in *; try done.
    by rewrite Hz. }
  assert (∀ s, lookup_path ["nscf"; "kpoints"] (inputs s) = Some kv →
            zero_shift_mesh kv = false →
            is_ok (nscf_kpoints_check s).2 = false) as Hrej.
  { intros s Hs Hz. rewrite (nscf_kpoints_check_present _ _ Hs).
    destruct kv as [| | | | | | |[m o|pts|]| |]; simpl in *; try done.
    by rewrite Hz. }
  assert (∀ e, get_explicit_kpoints kv = Raise e →
            nscf_validation_error e = false) as Hquiet.
  { intros e. unfold get_explicit_kpoints, get_kpoints_mesh_list.
    destruct kv as [| | | | | | |[[[n1 n2] n3] o|pts|]| |]; simpl;
      try (by intros [= <-]).
    destruct (_ || _); simpl; by intros [= <-]. }
  destruct call as [st r] eqn:E. simpl.
  split; [|split].
  - intros Hno.
    apply minimal_w90_workgraph_inv in E as [(e & -> & -> & _)|(c & p & _ & _ & E)];
      [eauto|].
    apply workgraph_body_inv in E as (s1 & r1 & E1 & [Hwg Hframe] & E).
    destruct r1 as [scf_md|e1]; [|destruct E as (-> & -> & _); eauto].
    destruct E as (r2 & E2 & E).
    assert (lookup_path ["nscf"; "kpoints"] (inputs s1) = Some kv) as Hkv1.
    { by rewrite Hframe. }
    pose proof (Hrej _ Hkv1 Hno) as Hb. rewrite E2 in Hb. simpl in Hb.
    destruct r2 as [kp|e2]; [done|]. destruct E as [-> ->]. eauto.
  - intros Hyes e ->.
    apply minimal_w90_workgraph_inv in E as [(e' & _ & [= <-] & Hq)|(c & p & _ & _ & E)];
      [done|].
    apply workgraph_body_inv in E as (s1 & r1 & E1 & [Hwg Hframe] & E).
    destruct r1 as [scf_md|e1]; [|by destruct E as (_ & [= <-] & Hq)].
    destruct E as (r2 & E2 & E).
    assert (lookup_path ["nscf"; "kpoints"] (inputs s1) = Some kv) as Hkv1.
    { by rewrite Hframe. }
    rewrite (Hpass _ Hkv1 Hyes) in E2. injection E2 as <-.
    destruct (get_explicit_kpoints kv) as [kp|e2] eqn:Ek.
    + destruct E as [Hq _]. by apply Hq.
    + destruct E as [_ [= <-]]. by apply Hquiet.
  - intros s Hs. split; [|split; [by apply Hpass|]].
    + destruct (zero_shift_mesh kv) eqn:Hz.
      * by rewrite (Hpass _ Hs eq_refl).
      * by apply Hrej.
    + rewrite (nscf_kpoints_check_present _ _ Hs).
      split; [by intros pts ->|]. intros m o -> Ho. simpl. by rewrite Ho.
Qed.

Lemma C5_nscf_kpoints_validation_witness :
  let kv := Launch.kpoints_mesh in
  let call := Launch.run Launch.inputs in
  (zero_shift_mesh kv = false → ∃ e, call.2 = Raise e ∧ wg call.1 = None) ∧
  (zero_shift_mesh kv = true →
     ∀ e, call.2 = Raise e → nscf_validation_error e = false) ∧
  (∀ s, lookup_path ["nscf"; "kpoints"] (inputs s) = Some kv →
     is_ok (nscf_kpoints_check s).2
       = zero_shift_mesh kv && is_ok (get_explicit_kpoints kv) ∧
     (zero_shift_mesh kv = true →
        nscf_kpoints_check s = (s, get_explicit_kpoints kv)) ∧
     (∀ pts, kv = VKpoints (KList pts) →
        nscf_kpoints_check s = (s, Raise (ValueError msg_explicit))) ∧
     (∀ mesh offset, kv = VKpoints (KMesh mesh offset) →
        offset_is_zero offset = false →
        nscf_kpoints_check s = (s, Raise (AssertionError msg_shift)))).
Proof.
  exact (C5_nscf_kpoints_validation Launch.registry Launch.codes Launch.structure
           Launch.pseudo_family Launch.inputs Launch.kpoints_mesh eq_refl).
Defined.

(** C10.  When the call fails one of the nscf k-point validations, the object
    bound to [inputs] has already been mutated: the scf section with its
    CONTROL and SYSTEM mappings is there, [calculation] is scf, [ecutwfc] is
    the caller's or 30.0, [ecutrho] is eight times [ecutwfc]; and no
    WorkGraph exists. *)
Theorem C10_mutated_before_validation reg codes structure family inputs0 st e :
  minimal_w90_workgraph reg codes structure family inputs0 = (st, Raise e) →
  nscf_validation_error e = true →
  let w := default (VFloat 30) (lookup_path ecutwfc_path inputs0) in
  lookup_path ["scf"; "parameters"; "CONTROL"; "calculation"] (inputs st)
    = Some (VStr "scf") ∧
  lookup_path ecutwfc_path (inputs st) = Some w ∧
  (∃ rho, py_mul_float w 8 = Ok rho ∧ lookup_path ecutrho_path (inputs st) = Some rho) ∧
  wg st = None.
Proof.
  intros H He.
  destruct (raises_validation_error _ _ _ _ _ _ _ H He) as (scf_md & Hscf & _).
  destruct (scf_setup_post _ _ _ Hscf) as (Hc & Hw & Hrho).
  destruct (scf_setup_frame _ _ _ Hscf) as [[Hwg _] _].
  done.
Qed.

Lemma C10_mutated_before_validation_witness :
  let st := (Launch.run (VDict ∅)).1 in
  lookup_path ["scf"; "parameters"; "CONTROL"; "calculation"] (inputs st)
    = Some (VStr "scf") ∧
  lookup_path ecutwfc_path (inputs st) = Some (VFloat 30) ∧
  (∃ rho, py_mul_float (VFloat 30) 8 = Ok rho
          ∧ lookup_path ecutrho_path (inputs st) = Some rho) ∧
  wg st = None.
Proof.
  exact (C10_mutated_before_validation Launch.registry Launch.codes
           Launch.structure Launch.pseudo_family (VDict ∅)
           (Launch.run (VDict ∅)).1 (AssertionError msg_nscf)
           eq_refl eq_refl).
Defined.

(** With the nscf mesh [0, 2, 2] the call returns a graph whose Wannier90
    tasks get one point, the Gamma point, where the product of the sizes is
    zero; with [-1, 2, 2] the conversion of line 109 raises ValueError. *)
Lemma C6_counterexample :
  ¬ C6_as_stated (Launch.inputs_with_nscf_mesh (0, 2, 2)%Z)
  ∧ raised (Launch.run (Launch.inputs_with_nscf_mesh (-1, 2, 2)%Z))
    = Some (ValueError "negative dimensions are not allowed").
Proof.
  split; [|by vm_compute].
  intros H.
  destruct (H 0%Z 2%Z 2%Z (0, 0, 0)%Q eq_refl eq_refl)
    as (g & points & Hg & Hpp & _ & Hlen).
  vm_compute in Hg. injection Hg as <-.
  vm_compute in Hpp. injection Hpp as <-. done.
Qed.

(** C6, amended.  For an unshifted nscf mesh whose sizes are all at least one,
    the conversion goes through and yields one explicit point per cell of the
    mesh; that list is what the kpoints slot of both Wannier90 tasks, w90_pp
    and w90, is bound to in every graph the call returns; and the call does
    return a graph for every well-typed tree that supplies the scf k-points,
    the k-point path and the projections, when the codes and the
    pseudopotentials resolve. *)
Theorem C6_explicit_kpoints reg codes structure family inputs0 n1 n2 n3 offset :
  lookup_path ["nscf"; "kpoints"] inputs0
    = Some (VKpoints (KMesh (n1, n2, n3) offset)) →
  offset_is_zero offset = true →
  (1 ≤ n1)%Z → (1 ≤ n2)%Z → (1 ≤ n3)%Z →
  let points := mgrid_points (n1, n2, n3) offset in
  let bound g :=
    task_input "w90_pp" "kpoints" g = Some (Data (VKpoints (KList points)))
    ∧ task_input "w90" "kpoints" g = Some (Data (VKpoints (KList points))) in
  Z.of_nat (length points) = (n1 * n2 * n3)%Z ∧
  (∀ s, lookup_path ["nscf"; "kpoints"] (inputs s)
          = Some (VKpoints (KMesh (n1, n2, n3) offset)) →
        nscf_kpoints_check s = (s, Ok (VKpoints (KList points)))) ∧
  (∀ st g,
     minimal_w90_workgraph reg codes structure family inputs0 = (st, Ok g) →
     bound g) ∧
  (codes_resolve reg codes →
   is_Some (find_pseudos reg family structure) →
   well_typed inputs0 = true →
   supplies inputs0 ["scf"; "kpoints"] = true →
   supplies inputs0 ["wannier90"; "kpoint_path"] = true →
   supplies inputs0 ["wannier90"; "projections"] = true →
   ∃ st g,
     minimal_w90_workgraph reg codes structure family inputs0 = (st, Ok g)
     ∧ bound g).
Proof.
  intros Hkv Hzero H1 H2 H3 points bound.
  assert (positive_sizes (n1, n2, n3) = true) as Hpos.
  { by apply positive_sizes_spec. }
  destruct (get_explicit_kpoints_positive _ offset Hpos) as [Hconv Hlen].
  assert (∀ s, lookup_path ["nscf"; "kpoints"] (inputs s)
                 = Some (VKpoints (KMesh (n1, n2, n3) offset)) →
               nscf_kpoints_check s = (s, Ok (VKpoints (KList points))))
    as Hblock.
  { intros s Hs. rewrite (nscf_kpoints_check_present _ _ Hs).
    unfold check_outcome. by rewrite Hzero, Hconv. }
  assert (∀ st g,
     minimal_w90_workgraph reg codes structure family inputs0 = (st, Ok g) →
     bound g) as Hbound.
  { intros st g (c & p & _ & _ & H)%minimal_w90_workgraph_ok.
    apply workgraph_body_ok in H
      as (s1 & scf_md & kp & s2 & nscf_md & s3 & pw2wan & s4 & w90
          & E1 & E2 & _ & _ & _ & H).
    destruct (scf_setup_frame _ _ _ E1) as [[_ Hframe] _].
    rewrite Hblock in E2 by by rewrite Hframe.
    injection E2 as <-.
    apply build_graph_ok in H as (_ & _ & Hpp & Hw90 & _). done. }
  split; [done|]. split; [done|]. split; [done|].
  intros Hcodes Hps Hwt Hk Hkpath Hproj.
  destruct (minimal_w90_workgraph_run reg codes structure family inputs0)
    as (st & g & Hrun & _); try done.
  - unfold passes_nscf_checks. by rewrite Hkv.
  - unfold positive_nscf_mesh. by rewrite Hkv.
  - exists st, g. split; [done|]. by eapply Hbound.
Qed.

Lemma C6_explicit_kpoints_witness :
  let points := mgrid_points (2, 2, 2)%Z (0, 0, 0)%Q in
  Z.of_nat (length points) = (2 * 2 * 2)%Z
  ∧ ∃ st g, Launch.run Launch.inputs = (st, Ok g)
      ∧ task_input "w90_pp" "kpoints" g = Some (Data (VKpoints (KList points)))
      ∧ task_input "w90" "kpoints" g = Some (Data (VKpoints (KList points))).
Proof.
  destruct (C6_explicit_kpoints Launch.registry Launch.codes Launch.structure
              Launch.pseudo_family Launch.inputs 2 2 2 (0, 0, 0)%Q
              eq_refl eq_refl) as (Hlen & _ & _ & Hrun); [lia..|].
  split; [exact Hlen|].
  apply Hrun; try reflexivity.
  - split; [intros k label _; by eexists|].
    repeat split; by eexists.
  - by eexists.
Defined.

(** A caller who asks for [*.chk] does not get it: the list is replaced. *)
Lemma C3_counterexample :
  ¬ C3_as_stated
      (Launch.inputs_with_pw2wan_settings {[ retrieve_key := VList [VStr "*.chk"] ]}).
Proof.
  intros H.
  destruct (Launch.run (Launch.inputs_with_pw2wan_settings
              {[ retrieve_key := VList [VStr "*.chk"] ]})) as [st [g|e]] eqn:E;
    [|by vm_compute in E].
  destruct (H st g [VStr "*.chk"] E eq_refl) as (l' & Hl' & Hsup & _).
  assert (node_lookup "pw2wan" "settings" [retrieve_key] g = Some retrieve_patterns)
    as Hg.
  { vm_compute in E. injection E as _ <-. reflexivity. }
  rewrite Hg in Hl'. injection Hl' as <-.
  assert (VStr "*.chk" ∈ [VStr "*.amn"; VStr "*.mmn"; VStr "*.eig"]) as Hin.
  { apply Hsup, list_elem_of_here. }
  rewrite !elem_of_cons in Hin.
  destruct Hin as [?|[?|[?|?%elem_of_nil]]]; done.
Qed.

(** C3, amended.  In every graph the call returns, the retrieve list of the
    settings bound to pw2wan is exactly the three patterns, whatever list the
    caller supplied; each other entry of the settings is the caller's. *)
Theorem C3_retrieve_list_replaced reg codes structure family inputs0 st g :
  minimal_w90_workgraph reg codes structure family inputs0 = (st, Ok g) →
  node_lookup "pw2wan" "settings" [retrieve_key] g
    = Some (VList [VStr "*.amn"; VStr "*.mmn"; VStr "*.eig"]) ∧
  ∀ k, k ≠ retrieve_key →
    node_lookup "pw2wan" "settings" [k] g
    = lookup_path ["pw2wannier90"; "settings"; k] inputs0.
Proof.
  intros (c & p & _ & _ & H)%minimal_w90_workgraph_ok.
  apply workgraph_body_ok in H
    as (s1 & scf_md & kp & s2 & nscf_md & s3 & pw2wan & s4 & w90
        & E1 & _ & E3 & E4 & _ & H).
  destruct (scf_setup_frame _ _ _ E1) as [[_ Hf1] _].
  destruct (nscf_setup_frame _ _ _ E3) as [[_ Hf2] _].
  apply pw2wan_setup_ok in E4 as (d & Hd & Hret & Hkeep).
  apply build_graph_ok in H as (_ & _ & _ & _ & (d' & Hd' & Hset) & _).
  rewrite Hd in Hd'. injection Hd' as <-.
  unfold node_lookup. rewrite Hset. split.
  - rewrite lookup_path_cons, Hret. done.
  - intros k Hk. rewrite lookup_path_cons, (Hkeep k Hk), Hf2, Hf1 by done.
    simpl. by destruct (lookup_path _ _).
Qed.

Lemma C3_retrieve_list_replaced_witness :
  let call := Launch.run (Launch.inputs_with_pw2wan_settings
                            {[ retrieve_key := VList [VStr "*.chk"] ]}) in
  ∃ g, call.2 = Ok g ∧
    node_lookup "pw2wan" "settings" [retrieve_key] g
      = Some (VList [VStr "*.amn"; VStr "*.mmn"; VStr "*.eig"]).
Proof.
  simpl.
  destruct (Launch.run (Launch.inputs_with_pw2wan_settings
              {[ retrieve_key := VList [VStr "*.chk"] ]})) as [st [g|e]] eqn:E;
    [|by vm_compute in E].
  exists g. split; [done|].
  exact (proj1 (C3_retrieve_list_replaced _ _ _ _ _ _ _ E)).
Defined.

(** C7.  The launcher's call (a 2x2x2 unshifted mesh, nothing overridden)
    returns a graph with exactly the five tasks scf, nscf, w90_pp, pw2wan and
    w90; its links are scf -> nscf and nscf -> pw2wan (remote folder),
    w90_pp -> pw2wan (nnkp file) and pw2wan -> w90 (remote input folder), so
    that w90_pp has no upstream task; and [mp_grid] of w90 is [2, 2, 2]. *)
Theorem C7_launcher_graph :
  ∃ g, returned (Launch.run Launch.inputs) = Some g ∧
    task_name <$> wg_tasks g = ["scf"; "nscf"; "w90_pp"; "pw2wan"; "w90"] ∧
    wg_links g = [("scf", "remote_folder", "nscf", "parent_folder");
                  ("nscf", "remote_folder", "pw2wan", "parent_folder");
                  ("w90_pp", "nnkp_file", "pw2wan", "nnkp_file");
                  ("pw2wan", "remote_folder", "w90", "remote_input_folder")] ∧
    filter (λ l, l.1.2 = "w90_pp") (wg_links g) = [] ∧
    node_lookup "w90" "parameters" ["mp_grid"] g
      = Some (VList [VInt 2; VInt 2; VInt 2]).
Proof.
  destruct (returned (Launch.run Launch.inputs)) as [g|] eqn:E;
    [|by vm_compute in E].
  exists g. split; [done|].
  vm_compute in E. injection E as <-.
  repeat split; vm_compute; reflexivity.
Qed.

(** C1 on the launcher's inputs with a caller-supplied scf SYSTEM namelist
    [{ecutwfc: 30.0, ecutrho: 400.0}]: the supplied [ecutwfc] is kept, but
    the supplied [ecutrho] is overwritten by 8 * 30.0 = 240.0, both in the
    caller's tree and in the parameters bound to the scf task. *)
Theorem C1_ecutrho_overwritten :
  let system : gmap string value :=
    <["ecutwfc" := VFloat 30]> {[ "ecutrho" := VFloat 400 ]} in
  let call := Launch.run (Launch.inputs_with_scf_system system) in
  lookup_path ecutwfc_path (inputs call.1) = Some (VFloat 30) ∧
  lookup_path ecutrho_path (inputs call.1) = Some (VFloat 240) ∧
  ∃ g, call.2 = Ok g ∧
    node_lookup "scf" "parameters" ["SYSTEM"; "ecutrho"] g = Some (VFloat 240).
Proof.
  simpl. split; [by vm_compute|]. split; [by vm_compute|].
  destruct (Launch.run _) as [st [g|e]] eqn:E; [|by vm_compute in E].
  exists g. split; [done|]. vm_compute in E. injection E as _ <-.
  by vm_compute.
Qed.

(** C2 on the launcher's inputs with a caller-supplied scf SYSTEM namelist
    [{ecutwfc: 40.0}] and no nscf parameters: the parameters bound to the
    nscf task have no SYSTEM entry at all (only CONTROL), while those of the
    scf task carry the caller's cutoff. *)
Theorem C2_nscf_system_not_inherited :
  let call := Launch.run (Launch.inputs_with_scf_system {[ "ecutwfc" := VFloat 40 ]}) in
  ∃ g, call.2 = Ok g ∧
    node_lookup "scf" "parameters" ["SYSTEM"; "ecutwfc"] g = Some (VFloat 40) ∧
    node_lookup "nscf" "parameters" ["SYSTEM"] g = None ∧
    task_input "nscf" "parameters" g
      = Some (Data (VDictNode {[ "CONTROL" := VDict {[ "calculation" := VStr "nscf" ]} ]})).
Proof.
  simpl.
  destruct (Launch.run _) as [st [g|e]] eqn:E; [|by vm_compute in E].
  exists g. split; [done|]. vm_compute in E. injection E as _ <-.
  repeat split; vm_compute; reflexivity.
Qed.

(** C8 on the launcher's inputs with caller-supplied metadata for the
    wannier90 stage: the w90 task gets the caller's [options], the w90_pp task
    of the same stage gets the serial template. *)
Theorem C8_w90_pp_metadata_not_overridden :
  let options := VDict {[ "resources" := VDict {[ "num_machines" := VInt 4 ]} ]} in
  let call := Launch.run (Launch.inputs_with_w90_metadata (VDict {[ "options" := options ]})) in
  ∃ g, call.2 = Ok g ∧
    task_input "w90" "metadata" g = Some (Data (VDict {[ "options" := options ]})) ∧
    task_input "w90_pp" "metadata" g = Some (Data metadata_default_no_mpi).
Proof.
  simpl.
  destruct (Launch.run _) as [st [g|e]] eqn:E; [|by vm_compute in E].
  exists g. split; [done|]. vm_compute in E. injection E as _ <-.
  repeat split; vm_compute; reflexivity.
Qed.

(** A tree with the nscf mesh and nothing else passes the validations, and
    the call raises KeyError on the scf k-points, after the WorkGraph and
    its first task were created. *)
Lemma C9_counterexample :
  ¬ C9_as_stated Launch.inputs_nscf_only
  ∧ raised (Launch.run Launch.inputs_nscf_only) = Some (KeyError "kpoints")
  ∧ (λ g, task_name <$> wg_tasks g) <$> wg (Launch.run Launch.inputs_nscf_only).1
      = Some ["scf"].
Proof.
  split; [|split; by vm_compute].
  intros H. destruct (H eq_refl) as (g & E & _). by vm_compute in E.
Qed.

(** C9, amended.  The call returns the complete five-task graph for every
    tree that passes the three validations with a mesh whose sizes are all
    at least one, is well typed, and supplies the scf k-points and the
    k-point path and the projections of the wannier90 section, given codes
    for the three roles that resolve and a pseudopotential family that
    covers the structure.  Every other section or entry may be absent: it is
    defaulted. *)
Theorem C9_complete_graph reg codes structure family inputs0 :
  codes_resolve reg codes →
  is_Some (find_pseudos reg family structure) →
  well_typed inputs0 = true →
  passes_nscf_checks inputs0 = true →
  positive_nscf_mesh inputs0 = true →
  supplies inputs0 ["scf"; "kpoints"] = true →
  supplies inputs0 ["wannier90"; "kpoint_path"] = true →
  supplies inputs0 ["wannier90"; "projections"] = true →
  ∃ st g,
    minimal_w90_workgraph reg codes structure family inputs0 = (st, Ok g)
    ∧ task_name <$> wg_tasks g = ["scf"; "nscf"; "w90_pp"; "pw2wan"; "w90"]
    ∧ wg_links g = [("scf", "remote_folder", "nscf", "parent_folder");
                    ("nscf", "remote_folder", "pw2wan", "parent_folder");
                    ("w90_pp", "nnkp_file", "pw2wan", "nnkp_file");
                    ("pw2wan", "remote_folder", "w90", "remote_input_folder")].
Proof.
  intros Hcodes Hps Hwt Hchk Hpos Hk Hkpath Hproj.
  by apply minimal_w90_workgraph_run.
Qed.

Lemma C9_complete_graph_witness :
  ∃ st g,
    Launch.run Launch.inputs = (st, Ok g)
    ∧ task_name <$> wg_tasks g = ["scf"; "nscf"; "w90_pp"; "pw2wan"; "w90"]
    ∧ wg_links g = [("scf", "remote_folder", "nscf", "parent_folder");
                    ("nscf", "remote_folder", "pw2wan", "parent_folder");
                    ("w90_pp", "nnkp_file", "pw2wan", "nnkp_file");
                    ("pw2wan", "remote_folder", "w90", "remote_input_folder")].
Proof.
  apply (C9_complete_graph Launch.registry Launch.codes Launch.structure
           Launch.pseudo_family Launch.inputs); try reflexivity.
  - split; [intros k label _; by eexists|].
    repeat split; by eexists.
  - by eexists.
Defined.
